(** * Harvest helpers: the layer-name parser, the package mapper and the
      dataset upsert of [harvest_helpers.py], embedded and verified.

    The source is Python 2 ([has_key], byte strings returned by
    [text.encode('utf-8')]).  Byte strings are lists of [ascii]; dictionaries
    are [gmap]s keyed by [string]; exceptions are an explicit result type.
    The [debug] flag of every function is taken at its default [False]:
    the printing it guards is not modelled. *)

From Stdlib Require Import Ascii String.
From stdpp Require Import base option list gmap strings.

(** ** Byte strings and exceptions *)

Abbreviation bytes := (list ascii).

(** The text of a Rocq string literal as a Python byte string. *)
Definition b (s : string) : bytes := list_ascii_of_string s.

(** The exceptions the modelled code can raise.  [CkanError] carries the
    exceptions of the [ckanapi] client. *)
Inductive ckan_error : Type :=
  | NotFound
  | NotAuthorized
  | ValidationError
  | CKANAPIError.

Inductive exn : Type :=
  | IndexError
  | KeyError (key : string)
  | TypeError
  | AttributeError
  | CkanError (e : ckan_error).

Inductive result (A : Type) : Type :=
  | Ok (a : A)
  | Raise (e : exn).
Arguments Ok {A} a.
Arguments Raise {A} e.

Definition rbind {A B} (r : result A) (f : A -> result B) : result B :=
  match r with
  | Ok a => f a
  | Raise e => Raise e
  end.

Notation "x <- r ;; k" := (rbind r (fun x => k))
  (at level 100, r at next level, right associativity,
   format "'[v' x  <-  r  ;;  '/' k ']'").

(** ** Python string primitives on byte strings *)

Module Py.

Definition is_lower (c : ascii) : bool :=
  (97 <=? N_of_ascii c)%N && (N_of_ascii c <=? 122)%N.

Definition is_upper (c : ascii) : bool :=
  (65 <=? N_of_ascii c)%N && (N_of_ascii c <=? 90)%N.

Definition is_digit (c : ascii) : bool :=
  (48 <=? N_of_ascii c)%N && (N_of_ascii c <=? 57)%N.

(** [str.isspace] on a byte in the C locale, also the class [\s]. *)
Definition is_space (c : ascii) : bool :=
  let n := N_of_ascii c in
  (n =? 32)%N || ((9 <=? n)%N && (n <=? 13)%N).

Definition to_lower (c : ascii) : ascii :=
  if is_upper c then ascii_of_N (N_of_ascii c + 32) else c.

Definition to_upper (c : ascii) : ascii :=
  if is_lower c then ascii_of_N (N_of_ascii c - 32) else c.

(** [s.lower()] and [s.upper()] *)
Definition lower (s : bytes) : bytes := map to_lower s.
Definition upper (s : bytes) : bytes := map to_upper s.

(** [s.replace(c, "")] for a one-character [c]. *)
Definition remove (c : ascii) (s : bytes) : bytes :=
  filter (fun x => x ≠ c) s.

(** [s.startswith(c)] for a one-character [c]. *)
Definition startswith (c : ascii) (s : bytes) : bool :=
  match s with
  | x :: _ => Ascii.eqb x c
  | [] => false
  end.

(** [s.endswith(c)] for a one-character [c]. *)
Definition endswith (c : ascii) (s : bytes) : bool :=
  match last s with
  | Some x => Ascii.eqb x c
  | None => false
  end.

(** [s.split()]: the maximal runs of non-whitespace bytes. *)
Fixpoint split (s : bytes) : list bytes :=
  match s with
  | [] => []
  | c :: s' =>
      if is_space c then split s'
      else match s' with
           | [] => [[c]]
           | d :: _ =>
               if is_space d then [c] :: split s'
               else match split s' with
                    | t :: ts => (c :: t) :: ts
                    | [] => [[c]]
                    end
           end
  end.

(** [s.split(sep)] for a one-character [sep]. *)
Fixpoint split_on (sep : ascii) (s : bytes) : list bytes :=
  match s with
  | [] => [[]]
  | c :: s' =>
      if Ascii.eqb c sep then [] :: split_on sep s'
      else match split_on sep s' with
           | t :: ts => (c :: t) :: ts
           | [] => [[c]]
           end
  end.

(** [p[i]] for [i >= 0] *)
Definition index {A} (p : list A) (i : nat) : result A :=
  match p !! i with
  | Some x => Ok x
  | None => Raise IndexError
  end.

(** [" ".join(p)] *)
Fixpoint join (p : list bytes) : bytes :=
  match p with
  | [] => []
  | [t] => t
  | t :: ts => t ++ " "%char :: join ts
  end.

(** [p[-k]] for [k >= 1]: [IndexError] when [p] has fewer than [k] items. *)
Definition index_from_end {A} (p : list A) (k : nat) : result A :=
  if (1 <=? k) && (k <=? length p) then
    match p !! (length p - k) with
    | Some x => Ok x
    | None => Raise IndexError
    end
  else Raise IndexError.

(** [p[0:stop]]: a negative [stop] counts from the end, and the bounds are
    clipped to the list. *)
Definition slice_to {A} (p : list A) (stop : Z) : list A :=
  if (stop <? 0)%Z then take (Z.to_nat (Z.of_nat (length p) + stop)) p
  else take (Z.to_nat stop) p.

End Py.

(** ** The regular expressions of [_strptime]

    A backtracking matcher in continuation style with the semantics of
    Python's [re]: alternatives in order, greedy repetition, named groups. *)

Module Re.

Inductive re : Type :=
  | Chr (c : ascii)
  | Cls (f : ascii -> bool)
  | Seq (r1 r2 : re)
  | Alt (r1 r2 : re)
  | Plus (f : ascii -> bool)
  | Grp (name : string) (r : re).

Definition captures := list (string * bytes).

Section Matcher.
Context {A : Type}.

Fixpoint star (f : ascii -> bool) (s : bytes) (k : bytes -> option A)
  : option A :=
  match s with
  | c :: s' =>
      if f c then
        match star f s' k with
        | Some x => Some x
        | None => k s
        end
      else k s
  | [] => k []
  end.

Fixpoint rmatch (r : re) (s : bytes) (caps : captures)
    (k : bytes -> captures -> option A) : option A :=
  match r with
  | Chr c =>
      match s with
      | x :: s' => if Ascii.eqb x c then k s' caps else None
      | [] => None
      end
  | Cls f =>
      match s with
      | x :: s' => if f x then k s' caps else None
      | [] => None
      end
  | Seq r1 r2 => rmatch r1 s caps (fun s' caps' => rmatch r2 s' caps' k)
  | Alt r1 r2 =>
      match rmatch r1 s caps k with
      | Some x => Some x
      | None => rmatch r2 s caps k
      end
  | Plus f =>
      match s with
      | x :: s' => if f x then star f s' (fun s'' => k s'' caps) else None
      | [] => None
      end
  | Grp name r1 =>
      rmatch r1 s caps
        (fun s' caps' => k s' ((name, take (length s - length s') s) :: caps'))
  end.
End Matcher.

(** [re.match]: the first match from the start of [s]; the unmatched rest
    of [s] and the groups. *)
Definition match_prefix (r : re) (s : bytes) : option (bytes * captures) :=
  rmatch r s [] (fun rest caps => Some (rest, caps)).

(** [found.groupdict()[name]] *)
Fixpoint group (name : string) (caps : captures) : option bytes :=
  match caps with
  | [] => None
  | (n, v) :: caps' => if String.eqb n name then Some v else group name caps'
  end.

End Re.

(** ** [datetime.strptime] and [strftime] for the parser's two formats

    [strptime(d, "%d-%m-%Y %H:%M:%S")] compiles the format to the regular
    expression below (CPython 2.7, [_strptime.TimeRE]), matches it at the
    start of [d], refuses unconverted trailing data, converts the groups with
    [int] and builds a [datetime], whose constructor checks the ranges.
    Every failure is a [ValueError], here [None]. *)

Module Datetime.
Import Re.
Local Open Scope N_scope.

Definition between (lo hi : ascii) (c : ascii) : bool :=
  (N_of_ascii lo <=? N_of_ascii c) && (N_of_ascii c <=? N_of_ascii hi).

Definition digit : re := Cls Py.is_digit.

(** [3[0-1]|[1-2]\d|0[1-9]|[1-9]| [1-9]] *)
Definition re_d : re :=
  Alt (Seq (Chr "3") (Cls (between "0" "1")))
 (Alt (Seq (Cls (between "1" "2")) digit)
 (Alt (Seq (Chr "0") (Cls (between "1" "9")))
 (Alt (Cls (between "1" "9"))
      (Seq (Chr " ") (Cls (between "1" "9")))))).

(** [1[0-2]|0[1-9]|[1-9]] *)
Definition re_m : re :=
  Alt (Seq (Chr "1") (Cls (between "0" "2")))
 (Alt (Seq (Chr "0") (Cls (between "1" "9")))
      (Cls (between "1" "9"))).

(** [\d\d\d\d] *)
Definition re_Y : re := Seq digit (Seq digit (Seq digit digit)).

(** [2[0-3]|[0-1]\d|\d] *)
Definition re_H : re :=
  Alt (Seq (Chr "2") (Cls (between "0" "3")))
 (Alt (Seq (Cls (between "0" "1")) digit)
      digit).

(** [[0-5]\d|\d] *)
Definition re_M : re :=
  Alt (Seq (Cls (between "0" "5")) digit) digit.

(** [6[0-1]|[0-5]\d|\d] *)
Definition re_S : re :=
  Alt (Seq (Chr "6") (Cls (between "0" "1")))
 (Alt (Seq (Cls (between "0" "5")) digit)
      digit).

(** The pattern of ["%d-%m-%Y %H:%M:%S"]; the blank of the format
    becomes [\s+]. *)
Definition format_regex : re :=
  Seq (Grp "d" re_d) (Seq (Chr "-")
 (Seq (Grp "m" re_m) (Seq (Chr "-")
 (Seq (Grp "Y" re_Y) (Seq (Plus Py.is_space)
 (Seq (Grp "H" re_H) (Seq (Chr ":")
 (Seq (Grp "M" re_M) (Seq (Chr ":")
      (Grp "S" re_S)))))))))).

(** [s.lstrip()] *)
Fixpoint lstrip (s : bytes) : bytes :=
  match s with
  | c :: s' => if Py.is_space c then lstrip s' else s
  | [] => []
  end.

(** [int(s)] on the texts a group can hold: optional leading blanks, then
    decimal digits. *)
Definition int (s : bytes) : option N :=
  let ds := lstrip s in
  if forallb Py.is_digit ds && negb (length ds =? 0)%nat then
    Some (fold_left (fun acc c => 10 * acc + (N_of_ascii c - 48)) ds 0)
  else None.

Record datetime : Type := mk_datetime {
  year : N; month : N; day : N;
  hour : N; minute : N; second : N
}.

Definition is_leap (y : N) : bool :=
  (y mod 4 =? 0) && (negb (y mod 100 =? 0) || (y mod 400 =? 0)).

Definition days_in_month (y m : N) : N :=
  match m with
  | 2 => if is_leap y then 29 else 28
  | 4 | 6 | 9 | 11 => 30
  | _ => 31
  end.

(** The [datetime] constructor: [None] is its [ValueError]. *)
Definition make (y m d H M S : N) : option datetime :=
  if (1 <=? y) && (y <=? 9999) && (1 <=? m) && (m <=? 12)
     && (1 <=? d) && (d <=? days_in_month y m)
     && (H <=? 23) && (M <=? 59) && (S <=? 59)
  then Some (mk_datetime y m d H M S)
  else None.

Definition strptime (s : bytes) : option datetime :=
  match match_prefix format_regex s with
  | Some ([], caps) =>
      d ← group "d" caps ≫= int;
      m ← group "m" caps ≫= int;
      y ← group "Y" caps ≫= int;
      H ← group "H" caps ≫= int;
      M ← group "M" caps ≫= int;
      S ← group "S" caps ≫= int;
      make y m d H M S
  | _ => None
  end.

Definition digit_char (n : N) : ascii := ascii_of_N (48 + n).

(** ["%02d"] and ["%04d"] on the field ranges of a [datetime]. *)
Definition pad2 (n : N) : bytes :=
  [digit_char (n / 10); digit_char (n mod 10)].

Definition pad4 (n : N) : bytes :=
  [digit_char (n / 1000); digit_char (n / 100 mod 10);
   digit_char (n / 10 mod 10); digit_char (n mod 10)].

(** [dt.strftime("%Y-%m-%dT%H:%M:%S")].  Python 2 refuses years before
    1900 with a [ValueError]. *)
Definition strftime (dt : datetime) : option bytes :=
  if year dt <? 1900 then None
  else Some (pad4 (year dt) ++ "-"%char :: pad2 (month dt) ++ "-"%char ::
             pad2 (day dt) ++ "T"%char :: pad2 (hour dt) ++ ":"%char ::
             pad2 (minute dt) ++ ":"%char :: pad2 (second dt)).

End Datetime.

(** ** [parse_name] *)

(** [re.sub(r"[a-z]\(", u" (", text)]: every non-overlapping match, from
    the left, is replaced by a blank and an opening parenthesis. *)
Fixpoint normalize (s : bytes) : bytes :=
  match s with
  | c :: ((d :: s') as t) =>
      if Py.is_lower c && Ascii.eqb d "(" then " "%char :: "("%char :: normalize s'
      else c :: normalize t
  | _ => s
  end.

(** The body of the [try] block: the date text parsed and printed again;
    [None] when a [ValueError] is caught. *)
Definition reformat_date (d : bytes) : option bytes :=
  Datetime.strptime d ≫= Datetime.strftime.

(** [parse_name(text)].  [text] is given by its UTF-8 bytes: the pattern
    [[a-z]\(] and the byte-string methods used after
    [text.encode('utf-8')] only tell ASCII bytes apart, so matching before
    or after the encoding is the same.  [now] is the text of
    [datetime.now().strftime("%Y-%m-%dT%H:%M:%S")]; the result is the
    tuple [(t, n, dt)].  The unused [min_length = 4] is left out. *)
Definition parse_name (now : bytes) (text : bytes)
  : result (bytes * option bytes * bytes) :=
  let p := Py.split (normalize text) in
  last_tok <- Py.index_from_end p 1 ;;
  let date_missing := Py.startswith "(" last_tok in
  let chop_off := if date_missing then 1 else 3 in
  dt <- (if date_missing then Ok now
         else
           prev_tok <- Py.index_from_end p 2 ;;
           let d := Py.remove "(" prev_tok ++ " "%char :: Py.remove ")" last_tok in
           Ok (default now (reformat_date d))) ;;
  if Py.endswith ")" last_tok then
    id_tok <- Py.index_from_end p chop_off ;;
    let n := Py.lower (Py.remove ")" (Py.remove "(" id_tok)) in
    Ok (Py.join (Py.slice_to p (Z.of_nat (length p) - Z.of_nat chop_off)), Some n, dt)
  else
    Ok (Py.join (Py.slice_to p (Z.of_nat (length p) - 0)), None, dt).

(** ** CKAN packages and resources *)

(** A resource dict, e.g. [{"url": ..., "format": ..., "name": ...}]. *)
Abbreviation resource := (gmap string string).

(** The values of a package dict's metadata entries. *)
Inductive pyval : Type :=
  | VNone
  | VBool (v : bool)
  | VStr (v : string)
  | VStrs (v : list string)
  | VDicts (v : list (gmap string string)).

(** A package dict.  The entry under the key ["resources"] is kept apart as
    [resources] ([None]: the dict has no such key); [fields] holds every
    other entry. *)
Record package : Type := mk_package {
  fields : gmap string pyval;
  resources : option (list resource)
}.

(** [pkg["resources"] = rs] *)
Definition set_resources (pkg : package) (rs : list resource) : package :=
  mk_package (fields pkg) (Some rs).

(** [d[k]] *)
Definition getitem {V} (d : gmap string V) (k : string) : result V :=
  match d !! k with
  | Some v => Ok v
  | None => Raise (KeyError k)
  end.

(** [package["resources"]] *)
Definition get_resources (pkg : package) : result (list resource) :=
  match resources pkg with
  | Some rs => Ok rs
  | None => Raise (KeyError "resources")
  end.

(** ** Merging resource lists *)

(** [[r["url"] for r in l]] *)
Fixpoint urls (l : list resource) : result (list string) :=
  match l with
  | [] => Ok []
  | r :: l' =>
      u <- getitem r "url" ;;
      us <- urls l' ;;
      Ok (u :: us)
  end.

(** [add_resource_to_list]: the list is appended to in place and returned. *)
Definition add_resource_to_list (resourcedict_list : list resource)
    (resource_dict : resource) : result (list resource) :=
  u <- getitem resource_dict "url" ;;
  us <- urls resourcedict_list ;;
  if bool_decide (u ∈ us) then Ok resourcedict_list
  else Ok (resourcedict_list ++ [resource_dict]).

(** [add_resources_to_list]: the loop over [new], threading [result]. *)
Fixpoint add_resources_to_list (old new : list resource)
  : result (list resource) :=
  match new with
  | [] => Ok old
  | r :: new' =>
      res <- add_resource_to_list old r ;;
      add_resources_to_list res new'
  end.

(** ** [upsert_dataset] against a catalog client *)

(** The three actions of the [ckanapi] client that [upsert_dataset] uses. *)
Inductive call : Type :=
  | PackageShow (id : pyval)
  | PackageCreate (data : package)
  | PackageUpdate (data : package).

Definition is_write (c : call) : bool :=
  match c with
  | PackageShow _ => false
  | PackageCreate _ | PackageUpdate _ => true
  end.

(** One exchange with the client: the call and what it answered. *)
Definition exchange : Type := call * result package.

Section Upsert.
(** The catalog behind the client: any state, any answers. *)
Context {St : Type}.
Variable handle : St -> call -> St * result package.

(** The body of [if do_update:] up to the update call: the package to
    submit. *)
Definition reconcile (new_package existing : package)
    (new_resources : list resource)
    (overwrite_metadata drop_existing_resources : bool) : result package :=
  old_resources <- get_resources existing ;;
  rs <- (if drop_existing_resources then Ok new_resources
         else add_resources_to_list old_resources new_resources) ;;
  let pkg := if overwrite_metadata then new_package else existing in
  Ok (set_resources pkg rs).

(** [upsert_dataset(data_dict, ckanapi, overwrite_metadata,
    drop_existing_resources)]: the catalog after the call, the exchanges
    with the client in order, and the value returned or the exception
    raised.  The source updates its dicts and lists in place
    ([resourcedict_list.append], [pkg["resources"] = resources]); each
    updated object is read again only through the name it was updated
    under, so the updates are passed on as values. *)
Definition upsert_dataset (data_dict : option package)
    (overwrite_metadata drop_existing_resources : bool) (σ : St)
  : St * list exchange * result (option package) :=
  match data_dict with
  | None => (σ, [], Ok None)
  | Some data_dict =>
      match fields data_dict !! "name" with
      | None => (σ, [], Ok None)
      | Some n =>
          match get_resources data_dict with
          | Raise e => (σ, [], Raise e)
          | Ok new_resources =>
              let '(σ1, shown) := handle σ (PackageShow n) in
              match shown with
              | Raise _ =>
                  let '(σ2, created) := handle σ1 (PackageCreate data_dict) in
                  (σ2,
                   [(PackageShow n, shown); (PackageCreate data_dict, created)],
                   p <- created ;; Ok (Some p))
              | Ok existing =>
                  match reconcile data_dict existing new_resources
                          overwrite_metadata drop_existing_resources with
                  | Raise e => (σ1, [(PackageShow n, shown)], Raise e)
                  | Ok pkg =>
                      let '(σ2, updated) := handle σ1 (PackageUpdate pkg) in
                      (σ2,
                       [(PackageShow n, shown); (PackageUpdate pkg, updated)],
                       p <- updated ;; Ok (Some p))
                  end
              end
          end
      end
  end.
End Upsert.

(** The calls of a run that write to the catalog. *)
Definition writes (trace : list exchange) : list call :=
  filter (fun c => Is_true (is_write c)) (map fst trace).

(** The resource list a write submits. *)
Definition submitted_resources (c : call) : option (list resource) :=
  match c with
  | PackageShow _ => None
  | PackageCreate d | PackageUpdate d => resources d
  end.

(** *** Two clients to run the code against *)

(** A catalog held in memory: packages by name. *)
Module MemoryCatalog.
Definition state : Type := gmap string package.

Definition key_of (v : pyval) : option string :=
  match v with
  | VStr s => Some s
  | _ => None
  end.

Definition store (σ : state) (d : package) : state * result package :=
  match fields d !! "name" ≫= key_of with
  | Some k => (<[k := d]> σ, Ok d)
  | None => (σ, Raise (CkanError ValidationError))
  end.

Definition handle (σ : state) (c : call) : state * result package :=
  match c with
  | PackageShow id =>
      match key_of id ≫= (fun k => σ !! k) with
      | Some d => (σ, Ok d)
      | None => (σ, Raise (CkanError NotFound))
      end
  | PackageCreate d => store σ d
  | PackageUpdate d => store σ d
  end.
End MemoryCatalog.

(** An empty catalog that rejects every write. *)
Module RejectingCatalog.
Definition handle (σ : unit) (c : call) : unit * result package :=
  match c with
  | PackageShow _ => (σ, Raise (CkanError NotFound))
  | PackageCreate _ => (σ, Raise (CkanError ValidationError))
  | PackageUpdate _ => (σ, Raise (CkanError ValidationError))
  end.
End RejectingCatalog.

(** A catalog whose lookups fail for a reason other than not-found (a
    time-out surfaces as [CKANAPIError]) while its writes are accepted. *)
Module TimeoutCatalog.
Definition handle (σ : unit) (c : call) : unit * result package :=
  match c with
  | PackageShow _ => (σ, Raise (CkanError CKANAPIError))
  | PackageCreate d => (σ, Ok d)
  | PackageUpdate d => (σ, Ok d)
  end.
End TimeoutCatalog.

(** ** [wxs_to_dict]: from a map-service layer to a package dict *)

Definition str (s : bytes) : string := string_of_list_ascii s.

(** [make_dataset_name(slip_wfs_name)] *)
Definition make_dataset_name (slip_wfs_name : string) : result string :=
  x <- Py.index (Py.split_on ":" (b slip_wfs_name)) 1 ;;
  Ok (str x).

(** An organisation as [organization_show] returns it; [None]: the key is
    absent. *)
Record organisation : Type := mk_organisation {
  org_id : option string;
  org_title : option string;
  org_extras : option (list (gmap string string))
}.

(** [[x["value"] for x in extras if x["key"] == key]] *)
Fixpoint extras_values (key : string) (extras : list (gmap string string))
  : result (list string) :=
  match extras with
  | [] => Ok []
  | x :: xs =>
      k <- getitem x "key" ;;
      if String.eqb k key then
        v <- getitem x "value" ;;
        vs <- extras_values key xs ;;
        Ok (v :: vs)
      else extras_values key xs
  end.

(** Truth value of a string: the empty string is false. *)
Definition truthy (s : string) : bool := negb (String.eqb s "").

Definition newline : string := String (ascii_of_N 10) "".

Section Mapper.
(** [slugify] of the [slugify] package, and [json.dumps] on the nested
    coordinate lists of a geometry, are taken as given. *)
Variable slugify : string -> string.
Context {coord : Type}.
Variable json_dumps_multipolygon : list (list (list (list coord))) -> string.

(** An [owslib] layer.  [layer_name = None]: the object has no attribute
    [name]; [layer_parent_title = None]: it has no parent. *)
Record layer : Type := mk_layer {
  layer_name : option string;
  layer_id : string;
  layer_title : string;
  layer_parent_title : option string;
  layer_boundingBoxWGS84 : coord * coord * coord * coord
}.

Definition bboxWGSs84_to_gjMP (bbox : coord * coord * coord * coord) : string :=
  let '(e, s, w, n) := bbox in
  json_dumps_multipolygon [[[[e; n]; [e; s]; [w; s]; [w; n]]]].

(** The [try] block on the parent layer: the entries it leaves in [d].
    Whatever fails inside is swallowed, what was set before stays. *)
Definition theme_entries (l : layer) (group_dict : gmap string (gmap string string))
    (d : gmap string pyval) : gmap string pyval :=
  match layer_parent_title l with
  | None => d
  | Some p =>
      let d := <["theme" := VStr p]> d in
      match group_dict !! p with
      | None => d
      | Some grp_dict =>
          let d :=
            match grp_dict !! "id" with
            | Some grp_id =>
                if truthy grp_id then <["groups" := VDicts [{["id" := grp_id]}]]> d
                else d
            | None => d
            end in
          match grp_dict !! "name" with
          | Some grp_name =>
              if truthy grp_name
              then <["tag_string" := VStrs ["SLIP Classic"; "Harvested"; grp_name]]> d
              else d
          | None => d
          end
      end
  end.

Definition notes_text (ds_NAME : string) : string :=
  "The dataset _" +:+ ds_NAME +:+ "_ has" +:+
  " been sourced from Landgate's " +:+
  "Shared Location Information Platform (SLIP) - the home for Western" +:+
  " Australian government geospatial data." +:+ newline +:+ newline +:+
  "Many of the datasets in" +:+
  " SLIP are free and publicly available to users who simply " +:+
  "[sign up for a SLIP account](https://www2.landgate.wa.gov.au/web/guest" +:+
  "/request-registration-type)." +:+ newline +:+ newline +:+
  "Find out more about SLIP at " +:+
  "[http://slip.landgate.wa.gov.au/](http://slip.landgate.wa.gov.au/).".

Definition slip_description (ds_NAME : string) : string :=
  "when prompted, use your [SLIP](https://www2.landgate.wa.gov.au/" +:+
  "web/guest/how-to-access-slip-services) " +:+
  "username and password to preview the resource below " +:+
  "or open the resource URL in a GIS application (e.g. QGIS or ArcGIS) as layer _" +:+
  ds_NAME +:+ "_.".

(** [wxs_to_dict(layer, wxs_url, org_dict, group_dict, pdf_dict,
    fallback_org_id, res_format)]; [Ok None] is the skipped layer. *)
Definition wxs_to_dict (now : bytes) (l : layer) (wxs_url : string)
    (org_dict : gmap string organisation)
    (group_dict : gmap string (gmap string string))
    (pdf_dict : gmap string string)
    (fallback_org_id : option string) (res_format : string)
  : result (option package) :=
  n <- match layer_name l with
       | Some n => Ok n
       | None => make_dataset_name (layer_id l)
       end ;;
  parsed <- parse_name now (b (layer_title l)) ;;
  let '(ds_title, ds_name, date_pub) := parsed in
  match ds_name with
  | None => Ok None
  | Some ds_name =>
      let ds_NAME := str (Py.upper ds_name) in
      let d : gmap string pyval :=
        <["tag_string" := VStrs ["SLIP Classic"; "Harvested"]]> ∅ in
      let d := theme_entries l group_dict d in
      org_name <- Py.index (Py.split_on "-" ds_name) 0 ;;
      let owner_org_dict := org_dict !! str org_name in
      let owner_org_id :=
        match owner_org_dict ≫= org_id with
        | Some i => VStr i
        | None => from_option VStr VNone fallback_org_id
        end in
      let owner_org_title := default "" (owner_org_dict ≫= org_title) in
      let extras := default [] (owner_org_dict ≫= org_extras) in
      contact_jurisdiction <-
        match extras with
        | [] => Ok ("", "Western Australia (default)")
        | _ =>
            cs <- extras_values "Contact" extras ;;
            c <- Py.index cs 0 ;;
            js <- extras_values "Jurisdiction" extras ;;
            j <- Py.index js 0 ;;
            Ok (c, j)
        end ;;
      let owner_org_contact := fst contact_jurisdiction in
      let d := <["name" := VStr (slugify (str ds_title))]> d in
      let d := <["title" := VStr (str ds_title)]> d in
      let d := <["notes" := VStr (notes_text ds_NAME)]> d in
      let d := <["owner_org" := owner_org_id]> d in
      let d := <["data_portal" := VStr "http://slip.landgate.wa.gov.au/"]> d in
      let d := <["data_homepage" := VStr ""]> d in
      let d := <["license_id" := VStr "cc-by-sa"]> d in
      let d := <["author" := VStr owner_org_title]> d in
      let d := <["author_email" := VStr owner_org_contact]> d in
      let d := <["maintainer_email" := VStr "customerservice@landgate.wa.gov.au"]> d in
      let d := <["maintainer" := VStr "Landgate"]> d in
      let d := <["private" := VBool false]> d in
      let d := <["spatial" := VStr (bboxWGSs84_to_gjMP (layer_boundingBoxWGS84 l))]> d in
      let d := <["published_on" := VStr (str date_pub)]> d in
      let d := <["last_updated_on" := VStr (str date_pub)]> d in
      let d := <["update_frequency" := VStr "frequent"]> d in
      let pdf := match pdf_dict !! str ds_name with
                 | Some pdf_url => if truthy pdf_url then Some pdf_url else None
                 | None => None
                 end in
      let pdf_resource (pdf_url : string) : resource :=
        <["url" := pdf_url]>
        (<["name" := "Data dictionary and dataset metadata"]>
        (<["format" := "PDF"]>
        (<["description" := "Data Dictionary for " +:+ ds_NAME]> ∅))) in
      let d := match pdf with
               | Some pdf_url => <["data_homepage" := VStr pdf_url]> d
               | None => d
               end in
      let fmt := str (Py.lower (b res_format)) in
      let r : resource :=
        <[fmt +:+ "_layer" := ds_NAME]>
        (<["url" := wxs_url]>
        (<["name" := str ds_title +:+ " (" +:+ ds_NAME +:+ ") " +:+
                     str (Py.upper (b res_format))]>
        (<["format" := fmt]>
        (<["description" := slip_description ds_NAME]> ∅)))) in
      let resource_list :=
        match pdf with
        | Some pdf_url => [pdf_resource pdf_url; r]
        | None => [r]
        end in
      Ok (Some (mk_package d (Some resource_list)))
  end.
End Mapper.

(** A stand-in for [slugify] on ASCII text, to run the mapper on examples:
    lower case, every run of other characters than letters and digits
    becomes one hyphen, no hyphen at either end. *)
Module AsciiSlug.
Definition is_alnum (c : ascii) : bool :=
  Py.is_lower c || Py.is_digit c.

Fixpoint hyphenate (pending : bool) (s : bytes) : bytes :=
  match s with
  | [] => []
  | c :: s' =>
      if is_alnum c then
        (if pending then ["-"%char; c] else [c]) ++ hyphenate false s'
      else hyphenate true s'
  end.

Definition strip_leading_hyphen (s : bytes) : bytes :=
  match s with
  | c :: s' => if Ascii.eqb c "-" then s' else s
  | [] => []
  end.

Definition slugify (s : string) : string :=
  str (strip_leading_hyphen (hyphenate false (Py.lower (b s)))).
End AsciiSlug.

(** ** Vocabulary of the specification *)

(** The [url] of a resource that has one. *)
Definition url_of (r : resource) : string := default "" (r !! "url").

Definition has_url (r : resource) : Prop := is_Some (r !! "url").

(** No two resources of the list share a [url]. *)
Definition unique_urls (rs : list resource) : Prop := NoDup (url_of <$> rs).

(** The specification's merge, in its words: the new resources whose [url]
    is not yet present among the urls [seen] so far, in their given order,
    the first occurrence of a [url] winning ... *)
Fixpoint first_occurrences (seen : list string) (new : list resource)
  : list resource :=
  match new with
  | [] => []
  | r :: new' =>
      if bool_decide (url_of r ∈ seen) then first_occurrences seen new'
      else r :: first_occurrences (seen ++ [url_of r]) new'
  end.

(** ... appended to the existing resources in their original order. *)
Definition merged_spec (existing new : list resource) : list resource :=
  existing ++ first_occurrences (url_of <$> existing) new.

(** Every write of a run submits a resource list with unique urls. *)
Definition writes_have_unique_urls (trace : list exchange) : Prop :=
  ∀ c rs, c ∈ writes trace → submitted_resources c = Some rs → unique_urls rs.

(** A failure propagated to the caller with nothing written. *)
Definition failed_without_write (out : list exchange * result (option package))
  : Prop :=
  (∃ e, out.2 = Raise e) ∧ writes out.1 = [].

(** A probe that fails for another reason than not-found makes the run fail
    with nothing written. *)
Definition probe_failure_propagates {St} (handle : St → call → St * result package)
    (draft : package) (n : pyval) (ow drop : bool) (σ : St) : Prop :=
  ∀ e, (handle σ (PackageShow n)).2 = Raise (CkanError e) → e ≠ NotFound →
       failed_without_write
         ((upsert_dataset handle (Some draft) ow drop σ).1.2,
          (upsert_dataset handle (Some draft) ow drop σ).2).

(** A token in parentheses, and a text that holds one. *)
Definition parenthesized (tok : bytes) : bool :=
  Py.startswith "(" tok && Py.endswith ")" tok.

Definition has_parenthesized_token (text : bytes) : bool :=
  existsb parenthesized (Py.split text).

(** A text that holds a token in parentheses is given an identifier. *)
Definition identifier_found_when_parenthesized (now text : bytes) : Prop :=
  has_parenthesized_token text = true →
  ∀ t n dt, parse_name now text = Ok (t, n, dt) → n ≠ None.

(** The texts ["DD-MM-YYYY"], ["HH:MM:SS"] and ["YYYY-MM-DDTHH:MM:SS"]. *)
Definition date_text (d m y : N) : bytes :=
  Datetime.pad2 d ++ "-"%char :: Datetime.pad2 m ++ "-"%char :: Datetime.pad4 y.

Definition time_text (H M S : N) : bytes :=
  Datetime.pad2 H ++ ":"%char :: Datetime.pad2 M ++ ":"%char :: Datetime.pad2 S.

Definition iso_text (y m d H M S : N) : bytes :=
  Datetime.pad4 y ++ "-"%char :: Datetime.pad2 m ++ "-"%char :: Datetime.pad2 d ++
  "T"%char :: time_text H M S.

(** The title ["T (ID) (DD-MM-YYYY HH:MM:SS)"]. *)
Definition dated_title (T ID : bytes) (d m y H M S : N) : bytes :=
  T ++ b " (" ++ ID ++ b ") (" ++ date_text d m y ++ " "%char :: time_text H M S ++ b ")".

(** A text with a lowercase letter right before an opening parenthesis. *)
Fixpoint has_lower_paren (s : bytes) : bool :=
  match s with
  | c :: ((d :: _) as t) =>
      (Py.is_lower c && Ascii.eqb d "(") || has_lower_paren t
  | _ => false
  end.

(** The [name] entry of a mapped layer, when the mapper returned a dict. *)
Definition dataset_key (r : result (option package)) : option pyval :=
  match r with
  | Ok (Some pkg) => fields pkg !! "name"
  | _ => None
  end.

(** Layers with the same display title receive different dataset keys when
    their identifier fields differ. *)
Definition identifiers_separate_keys {coord : Type}
    (map_layer : layer (coord := coord) → result (option package))
    (l1 l2 : layer (coord := coord)) : Prop :=
  layer_title l1 = layer_title l2 →
  layer_name l1 ≠ layer_name l2 →
  layer_id l1 ≠ layer_id l2 →
  dataset_key (map_layer l1) ≠ dataset_key (map_layer l2).

(** [r] matches the text [w] at the head of any input, and it is the first
    way to match that lets the rest of the pattern succeed. *)
Definition first_match (r : Re.re) (w : bytes) : Prop :=
  ∀ (A : Type) rest caps (k : bytes → Re.captures → option A) res,
    k rest caps = Some res → Re.rmatch r (w ++ rest) caps k = Some res.

(** A character that is no blank, no lowercase letter and no parenthesis. *)
Definition plain (c : ascii) : Prop :=
  Py.is_space c = false ∧ Py.is_lower c = false
  ∧ Ascii.eqb c "(" = false ∧ Ascii.eqb c ")" = false.

(** A text without blanks. *)
Definition no_space (s : bytes) : Prop := Forall (λ c, Py.is_space c = false) s.

(** A dated title with a valid date is parsed back into its three parts. *)
Definition dated_title_parsed_exactly (now T ID : bytes) (d m y H M S : N) : Prop :=
  is_Some (Datetime.make y m d H M S) →
  parse_name now (dated_title T ID d m y H M S)
  = Ok (T, Some (Py.lower (Py.remove ")" (Py.remove "(" ID))),
        iso_text y m d H M S).

(** *** Example data *)

Definition url_only (u : string) : resource := {["url" := u]}.

Definition package_named (name : string) (rs : list resource) : package :=
  mk_package {["name" := VStr name]} (Some rs).

(** A stored record with a title of its own, and a catalog that holds it. *)
Definition stored_roads (rs : list resource) : package :=
  mk_package (<["title" := VStr "Roads (curated)"]> {["name" := VStr "roads"]})
             (Some rs).

Definition catalog_with (pkg : package) : MemoryCatalog.state :=
  {["roads" := pkg]}.

Definition example_now : bytes := b "2015-10-05T13:41:48".

(** Two layers of one service: the same display title, different names and
    ids. *)
Definition roads_layer (name id : string) : layer (coord := Z) :=
  mk_layer (Some name) id "Roads (LGATE-012) (14-10-2015 21:40:58)" None
           (112, -35, 129, -13)%Z.

(** The mapper with a stand-in for the two library functions and empty
    lookup tables. *)
Definition example_mapper (l : layer (coord := Z)) : result (option package) :=
  wxs_to_dict AsciiSlug.slugify (fun _ => "{}") example_now l
    "https://example.org/ows" ∅ ∅ ∅ None "WMS".

(** The record of the first of them. *)
Definition roads_package : package :=
  match example_mapper (roads_layer "LGATE-012" "slip:LGATE-012") with
  | Ok (Some pkg) => pkg
  | _ => mk_package ∅ None
  end.

(** ** Further functions of [harvest_helpers.py] *)

(** [make_slip_wfs_name(dataset_name)] *)
Definition make_slip_wfs_name (dataset_name : string) : string :=
  "slip:" +:+ str (Py.upper (b dataset_name)).

(** *** Vocabulary for the parser *)

(** A token: a non-empty text without blanks. *)
Definition token (t : bytes) : Prop := t ≠ [] ∧ no_space t.

(** The token lists on which [parse_name] finds every token it indexes. *)
Definition enough_tokens (p : list bytes) : bool :=
  match last p with
  | None => false
  | Some y =>
      Py.startswith "(" y
      || ((2 <=? length p) && (negb (Py.endswith ")" y) || (3 <=? length p)))
  end.

(** A character an identifier can hold. *)
Definition slug_char (c : ascii) : Prop :=
  c ≠ "("%char ∧ c ≠ ")"%char ∧ Py.is_upper c = false.

(** *** [upsert_datasets] *)

Section UpsertBatch.
Context {St : Type}.
Variable handle : St -> call -> St * result package.

(** [upsert_datasets(data_dict, ckanapi, overwrite_metadata,
    drop_existing_resources)]: the list comprehension over the datasets that
    are not [None], in order; an exception of one [upsert_dataset] ends the
    comprehension and is raised to the caller. *)
Fixpoint upsert_datasets (data_dict : list (option package))
    (overwrite_metadata drop_existing_resources : bool) (σ : St)
  : St * list exchange * result (list (option package)) :=
  match data_dict with
  | [] => (σ, [], Ok [])
  | None :: rest =>
      upsert_datasets rest overwrite_metadata drop_existing_resources σ
  | Some dataset :: rest =>
      let '(σ1, trace1, r1) :=
        upsert_dataset handle (Some dataset)
          overwrite_metadata drop_existing_resources σ in
      match r1 with
      | Raise e => (σ1, trace1, Raise e)
      | Ok p =>
          let '(σ2, trace2, r2) :=
            upsert_datasets rest overwrite_metadata drop_existing_resources σ1 in
          (σ2, trace1 ++ trace2, ps <- r2 ;; Ok (p :: ps))
      end
  end.
End UpsertBatch.

(** *** Vocabulary for the mapper *)

(** The key [n] that [wxs_to_dict] takes from the layer's name or, when the
    layer has none, from its id. *)
Definition layer_key {coord : Type} (l : layer (coord := coord)) : result string :=
  match layer_name l with
  | Some n => Ok n
  | None => make_dataset_name (layer_id l)
  end.

(** The key under which the owning organisation is looked up: the part of
    the identifier before its first hyphen. *)
Definition org_key (ds_name : bytes) : string :=
  str (hd [] (Py.split_on "-" ds_name)).

(** The url of the data dictionary of a dataset, when the table has a
    non-empty one. *)
Definition data_dictionary_url (pdf_dict : gmap string string)
    (ds_name : bytes) : option string :=
  match pdf_dict !! str ds_name with
  | Some pdf_url => if truthy pdf_url then Some pdf_url else None
  | None => None
  end.

(** *** Further example data *)

Definition example_documents : gmap string string :=
  {["lgate-012" := "https://example.org/lgate-012.pdf"]}.

(** An organisation whose extras lack the contact. *)
Definition example_organisations : gmap string organisation :=
  {["lgate" := mk_organisation (Some "org-1") (Some "Landgate")
                 (Some [<["value" := "WA"]> {["key" := "Jurisdiction"]}])]}.

(** The record of the example layer, mapped with the table of documents. *)
Definition documented_roads_package : package :=
  match wxs_to_dict AsciiSlug.slugify (fun _ => "{}") example_now
          (roads_layer "LGATE-012" "slip:LGATE-012")
          "https://example.org/ows" ∅ ∅ example_documents (Some "org-0") "WMS"
  with
  | Ok (Some pkg) => pkg
  | _ => mk_package ∅ None
  end.

(** *** [upsert_org] and [upsert_group] *)

(** The two kinds of catalog entities with a show, an update and a create
    action of their own. *)
Inductive entity : Type :=
  | Organization
  | Group.

(** The actions [organization_show], [organization_update] and
    [organization_create], and the three [group_] actions.  Show and update
    are given the keyword [id]; update and create are given the entries of
    [datadict] as keywords. *)
Inductive entity_call : Type :=
  | EntityShow (kind : entity) (id : pyval)
  | EntityUpdate (kind : entity) (id : pyval) (data : gmap string pyval)
  | EntityCreate (kind : entity) (data : gmap string pyval).

Definition entity_exchange : Type := entity_call * result (gmap string pyval).

(** Truth value of a dict: the empty dict is false. *)
Definition dict_truthy {V} (d : gmap string V) : bool := negb (size d =? 0).

Section UpsertEntity.
Context {St : Type}.
Variable handle : St -> entity_call -> St * result (gmap string pyval).

(** The [except:] branch and the end of the function: create the entity,
    then return it when it is a non-empty dict, [None] otherwise. *)
Definition create_entity (kind : entity) (datadict : gmap string pyval)
    (σ : St) (trace : list entity_exchange)
  : St * list entity_exchange * result (option (gmap string pyval)) :=
  let '(σ', created) := handle σ (EntityCreate kind datadict) in
  (σ', trace ++ [(EntityCreate kind datadict, created)],
   org <- created ;; Ok (if dict_truthy org then Some org else None)).

(** The body shared by [upsert_org] and [upsert_group], which differ in the
    actions they call.  The first [print] reads [datadict["title"]] and
    [datadict["name"]].  In the [try] block every exception leads to the
    create call: one raised by the show call, one raised by the update call,
    and the [TypeError] that Python raises before the update call is made
    when [datadict] itself has an [id] entry, the keyword [id] being then
    given twice. *)
Definition upsert_entity (kind : entity) (datadict : gmap string pyval) (σ : St)
  : St * list entity_exchange * result (option (gmap string pyval)) :=
  match getitem datadict "title" with
  | Raise e => (σ, [], Raise e)
  | Ok _ =>
      match getitem datadict "name" with
      | Raise e => (σ, [], Raise e)
      | Ok name =>
          let '(σ1, shown) := handle σ (EntityShow kind name) in
          let probe := [(EntityShow kind name, shown)] in
          match shown with
          | Raise _ => create_entity kind datadict σ1 probe
          | Ok _ =>
              match datadict !! "id" with
              | Some _ => create_entity kind datadict σ1 probe
              | None =>
                  let '(σ2, updated) :=
                    handle σ1 (EntityUpdate kind name datadict) in
                  let trace := probe ++ [(EntityUpdate kind name datadict, updated)] in
                  match updated with
                  | Raise _ => create_entity kind datadict σ2 trace
                  | Ok org =>
                      (σ2, trace, Ok (if dict_truthy org then Some org else None))
                  end
              end
          end
      end
  end.

(** [upsert_org(datadict, ckanapi)] *)
Definition upsert_org := upsert_entity Organization.

(** [upsert_group(datadict, ckanapi)] *)
Definition upsert_group := upsert_entity Group.
End UpsertEntity.

(** *** [get_pdf_dict] and [get_org_dict]

    Both read a CSV file through [csv.DictReader]; they are given here the
    rows it yields, each a dict from the column headers to the cells.  A
    column that the header lacks is a missing key.  Where a line of the file
    is shorter than the header, [csv.DictReader] fills the missing cells
    with [None]: the rows of [get_pdf_dict] have such cells; [get_org_dict]
    is given rows whose cells are all strings. *)

Definition lower_str (s : string) : string := str (Py.lower (b s)).

(** [cell.lower()]: [None] has no such method. *)
Definition lower_cell (cell : option string) : result string :=
  match cell with
  | Some s => Ok (lower_str s)
  | None => Raise AttributeError
  end.

(** [dict((p["id"].lower(), p["url"]) for p in rows)]: the url is stored as
    it is, [None] included. *)
Fixpoint pdf_dict_of (rows : list (gmap string (option string)))
    (pdf_dict : gmap string (option string))
  : result (gmap string (option string)) :=
  match rows with
  | [] => Ok pdf_dict
  | p :: rows' =>
      i <- getitem p "id" ;;
      k <- lower_cell i ;;
      u <- getitem p "url" ;;
      pdf_dict_of rows' (<[k := u]> pdf_dict)
  end.

Definition get_pdf_dict (rows : list (gmap string (option string)))
  : result (gmap string (option string)) :=
  pdf_dict_of rows ∅.

(** The dict that [get_org_dict] builds for one row, and its key. *)
Definition org_of_row (org : gmap string string)
  : result (string * gmap string pyval) :=
  name <- getitem org "name" ;;
  let orgname := lower_str name in
  title <- getitem org "title" ;;
  url <- getitem org "url" ;;
  logo_url <- getitem org "logo_url" ;;
  contact <- getitem org "contact" ;;
  homepage <- getitem org "url" ;;
  jurisdiction <- getitem org "jurisdiction" ;;
  Ok (orgname,
      <["extras" := VDicts [<["value" := contact]> {["key" := "Contact"]};
                            <["value" := homepage]> {["key" := "Homepage"]};
                            <["value" := jurisdiction]> {["key" := "Jurisdiction"]}]]>
      (<["groups" := VDicts [<["name" := "wa-state-government"]>
                             {["capacity" := "public"]}]]>
      (<["image_url" := VStr logo_url]>
      (<["url" := VStr url]>
      (<["title" := VStr title]>
      (<["name" := VStr orgname]> ∅)))))).

(** The loop of [get_org_dict] over the rows. *)
Fixpoint org_dict_of (rows : list (gmap string string))
    (orgs : gmap string (gmap string pyval))
  : result (gmap string (gmap string pyval)) :=
  match rows with
  | [] => Ok orgs
  | org :: rows' =>
      entry <- org_of_row org ;;
      org_dict_of rows' (<[entry.1 := entry.2]> orgs)
  end.

Definition get_org_dict (rows : list (gmap string string))
  : result (gmap string (gmap string pyval)) :=
  org_dict_of rows ∅.



(** A row of the file of data dictionaries. *)
Definition pdf_row (id url : option string) : gmap string (option string) :=
  <["url" := url]> {["id" := id]}.

Definition example_pdf_rows : list (gmap string (option string)) :=
  [pdf_row (Some "lgate-012") (Some "https://example.org/old.pdf");
   pdf_row (Some "LGATE-012") (Some "https://example.org/lgate-012.pdf");
   pdf_row (Some "Dow-013") None].

Definition example_org_row : gmap string string :=
  <["name" := "LGATE"]> (<["title" := "Landgate"]>
  (<["url" := "https://example.org/"]> (<["logo_url" := "https://example.org/l.png"]>
  (<["contact" := "info@example.org"]> {["jurisdiction" := "Western Australia"]})))).

(** Its entry in the table of organisations. *)
Definition example_org_entry : gmap string pyval :=
  match org_of_row example_org_row with
  | Ok (_, org) => org
  | Raise _ => ∅
  end.

(** What [wxs_to_dict] reads of an organisation built from a row. *)
Definition org_entry_ok (k : string) (org : gmap string pyval) : Prop :=
  lower_str k = k
  ∧ org !! "name" = Some (VStr k)
  ∧ ∃ extras c j,
      org !! "extras" = Some (VDicts extras)
      ∧ extras_values "Contact" extras = Ok [c]
      ∧ extras_values "Jurisdiction" extras = Ok [j].

(** * Properties *)

(** ** The doctests of [parse_name] *)

Example parse_name_doctest_1 now :
  parse_name now (b "Hydrographic Catchments - Basins (Dow-013) (03-11-2008 15:07:44)")
  = Ok (b "Hydrographic Catchments - Basins", Some (b "dow-013"), b "2008-11-03T15:07:44").
Proof. vm_compute. reflexivity. Qed.

Example parse_name_doctest_2 now :
  parse_name now (b "Misc Transport (Point) (Lgate-037) (18-10-2012 16:54:00)")
  = Ok (b "Misc Transport (Point)", Some (b "lgate-037"), b "2012-10-18T16:54:00").
Proof. vm_compute. reflexivity. Qed.

Example parse_name_doctest_3 now :
  parse_name now (b "Hydrographic Catchments - Basins (Dow-013)")
  = Ok (b "Hydrographic Catchments - Basins", Some (b "dow-013"), now).
Proof. vm_compute. reflexivity. Qed.

Example parse_name_doctest_4 now :
  parse_name now (b "Overview Rivers(LGATE-053) (14-05-2008 17:59:05)")
  = Ok (b "Overview River", Some (b "lgate-053"), b "2008-05-14T17:59:05").
Proof. vm_compute. reflexivity. Qed.

Example parse_name_doctest_5 now :
  parse_name now (b "Graticule (REF-001)")
  = Ok (b "Graticule", Some (b "ref-001"), now).
Proof. vm_compute. reflexivity. Qed.

Example parse_name_doctest_6 now :
  parse_name now (b "Virtual Mosaic")
  = Ok (b "Virtual Mosaic", None, now).
Proof. vm_compute. reflexivity. Qed.

(** ** Resource merge *)

Lemma urls_ok (l : list resource) :
  Forall has_url l → urls l = Ok (url_of <$> l).
Proof.
  induction 1 as [|r l [u Hu] _ IH]; [done|].
  cbn. unfold getitem, url_of. rewrite Hu, IH. done.
Qed.

Lemma urls_inv (l : list resource) us :
  urls l = Ok us → us = url_of <$> l ∧ Forall has_url l.
Proof.
  revert us. induction l as [|r l IH]; intros us; cbn.
  - intros [= <-]. split; [done|constructor].
  - unfold getitem, url_of. destruct (r !! "url") as [u|] eqn:Hu; [|done].
    cbn. destruct (urls l) as [us'|] eqn:Hl; [|done].
    cbn. intros [= <-]. destruct (IH _ eq_refl) as [-> Hall].
    split; [done|]. constructor; [by eexists|done].
Qed.

Lemma add_resource_to_list_ok (old : list resource) (r : resource) :
  Forall has_url old → has_url r →
  add_resource_to_list old r
  = Ok (if bool_decide (url_of r ∈ url_of <$> old) then old else old ++ [r]).
Proof.
  intros Hold [u Hu]. unfold add_resource_to_list, getitem, url_of.
  rewrite Hu. cbn. rewrite (urls_ok _ Hold). cbn.
  unfold url_of. by case_bool_decide.
Qed.

Lemma add_resources_to_list_ok (new old : list resource) :
  Forall has_url old → Forall has_url new →
  add_resources_to_list old new = Ok (merged_spec old new).
Proof.
  unfold merged_spec. revert old.
  induction new as [|r new IH]; intros old Hold Hnew; cbn.
  - by rewrite app_nil_r.
  - apply Forall_cons in Hnew as [Hr Hnew].
    rewrite (add_resource_to_list_ok _ _ Hold Hr). cbn.
    case_bool_decide.
    + by apply IH.
    + rewrite IH; [|apply Forall_app; split; [done|by constructor]|done].
      by rewrite fmap_app, <- app_assoc.
Qed.

(** The new resources kept by the merge are resources of [new] whose url
    was not seen, and no url is kept twice. *)
Lemma first_occurrences_sound seen new r :
  r ∈ first_occurrences seen new → r ∈ new ∧ url_of r ∉ seen.
Proof.
  revert seen. induction new as [|x new IH]; intros seen; cbn.
  - by intros ?%elem_of_nil.
  - case_bool_decide as Hx.
    + intros [? ?]%IH. split; [by right|done].
    + intros [->|Hin]%elem_of_cons; [split; [by left|done]|].
      apply IH in Hin as [? Hn]. split; [by right|].
      intros ?. apply Hn, elem_of_app. by left.
Qed.

Lemma first_occurrences_NoDup seen new :
  NoDup seen → NoDup (seen ++ (url_of <$> first_occurrences seen new)).
Proof.
  revert seen. induction new as [|x new IH]; intros seen Hseen; cbn.
  - by rewrite app_nil_r.
  - case_bool_decide as Hx; [by apply IH|].
    cbn. rewrite cons_middle, (assoc_L (++)). apply IH.
    apply NoDup_app. split_and!; [done| |apply NoDup_singleton].
    intros u Hu ->%list_elem_of_singleton. done.
Qed.

(** Every url of [new] is present after the merge. *)
Lemma first_occurrences_complete seen new r :
  r ∈ new → url_of r ∈ seen ++ (url_of <$> first_occurrences seen new).
Proof.
  revert seen. induction new as [|x new IH]; intros seen; cbn.
  - by intros ?%elem_of_nil.
  - intros [->|Hin]%elem_of_cons.
    + case_bool_decide as Hx; [apply elem_of_app; by left|].
      cbn. apply elem_of_app. right. by left.
    + case_bool_decide as Hx; [by apply IH|].
      cbn. rewrite cons_middle, (assoc_L (++)). by apply IH.
Qed.

(** ** [upsert_dataset]: the run when the record exists *)

Section UpsertFacts.
Context {St : Type} (handle : St → call → St * result package).

Lemma upsert_dataset_found σ σ1 draft existing n new (ow drop : bool) :
  fields draft !! "name" = Some n →
  resources draft = Some new →
  handle σ (PackageShow n) = (σ1, Ok existing) →
  upsert_dataset handle (Some draft) ow drop σ
  = match reconcile draft existing new ow drop with
    | Raise e => (σ1, [(PackageShow n, Ok existing)], Raise e)
    | Ok pkg =>
        (fst (handle σ1 (PackageUpdate pkg)),
         [(PackageShow n, Ok existing);
          (PackageUpdate pkg, snd (handle σ1 (PackageUpdate pkg)))],
         p <- snd (handle σ1 (PackageUpdate pkg)) ;; Ok (Some p))
    end.
Proof.
  intros Hn Hnew Hshow. unfold upsert_dataset, get_resources.
  rewrite Hn, Hnew, Hshow.
  destruct (reconcile _ _ _ _ _); [|done].
  by destruct (handle σ1 _).
Qed.

Lemma reconcile_ok draft existing old new rs (ow drop : bool) :
  resources existing = Some old →
  (if drop then Ok new else add_resources_to_list old new) = Ok rs →
  reconcile draft existing new ow drop
  = Ok (set_resources (if ow then draft else existing) rs).
Proof.
  intros Hold Hrs. unfold reconcile, get_resources. rewrite Hold. cbn.
  destruct drop; by rewrite Hrs.
Qed.
End UpsertFacts.

Lemma writes_show_update n shown pkg updated :
  writes [(PackageShow n, shown); (PackageUpdate pkg, updated)]
  = [PackageUpdate pkg].
Proof. done. Qed.

(** C1.  When the record exists and [drop_existing_resources] is [False],
    the one write of [upsert_dataset] submits the existing resources in
    their order followed by the new resources whose url is not yet in the
    list built so far, in their given order, the first occurrence of a url
    winning; existing [a, b] merged with new [b, c] gives [a, b, c]. *)
Theorem upsert_merges_resources {St} (handle : St → call → St * result package)
    σ σ1 draft existing n old new (ow : bool) :
  fields draft !! "name" = Some n →
  resources draft = Some new →
  handle σ (PackageShow n) = (σ1, Ok existing) →
  resources existing = Some old →
  Forall has_url old →
  Forall has_url new →
  add_resources_to_list old new = Ok (merged_spec old new)
  ∧ writes (upsert_dataset handle (Some draft) ow false σ).1.2
    = [PackageUpdate (set_resources (if ow then draft else existing)
                                    (merged_spec old new))]
  ∧ add_resources_to_list [url_only "a"; url_only "b"] [url_only "b"; url_only "c"]
    = Ok [url_only "a"; url_only "b"; url_only "c"].
Proof.
  intros Hn Hnew Hshow Hold Hu_old Hu_new.
  pose proof (add_resources_to_list_ok new old Hu_old Hu_new) as Hmerge.
  split_and!; [done| |by vm_compute].
  rewrite (upsert_dataset_found handle _ _ _ _ _ _ ow false Hn Hnew Hshow).
  by rewrite (reconcile_ok draft existing old new _ ow false Hold Hmerge).
Qed.

Lemma upsert_merges_resources_witness :
  writes (upsert_dataset MemoryCatalog.handle
            (Some (package_named "roads" [url_only "b"; url_only "c"]))
            false false
            (catalog_with (stored_roads [url_only "a"; url_only "b"]))).1.2
  = [PackageUpdate (stored_roads [url_only "a"; url_only "b"; url_only "c"])].
Proof.
  refine (proj1 (proj2 (upsert_merges_resources MemoryCatalog.handle
    (catalog_with (stored_roads [url_only "a"; url_only "b"]))
    (catalog_with (stored_roads [url_only "a"; url_only "b"]))
    (package_named "roads" [url_only "b"; url_only "c"])
    (stored_roads [url_only "a"; url_only "b"])
    (VStr "roads") [url_only "a"; url_only "b"] [url_only "b"; url_only "c"]
    false _ _ _ _ _ _))).
  - reflexivity.
  - reflexivity.
  - reflexivity.
  - reflexivity.
  - repeat constructor; eexists; reflexivity.
  - repeat constructor; eexists; reflexivity.
Defined.

(** ** Unique urls *)

Lemma add_resource_to_list_unique old r rs :
  add_resource_to_list old r = Ok rs → unique_urls old → unique_urls rs.
Proof.
  unfold add_resource_to_list, getitem, unique_urls.
  destruct (r !! "url") as [u|] eqn:Hu; [|done]. cbn.
  destruct (urls old) as [us|] eqn:Hus; [|done]. cbn.
  apply urls_inv in Hus as [-> _].
  case_bool_decide as Hin; intros [= <-] Hnd; [done|].
  rewrite fmap_app. apply NoDup_app. split_and!; [done| |apply NoDup_singleton].
  intros x Hx ->%list_elem_of_singleton. apply Hin.
  unfold url_of at 1 in Hx. by rewrite Hu in Hx.
Qed.

Lemma add_resources_to_list_unique new old rs :
  add_resources_to_list old new = Ok rs → unique_urls old → unique_urls rs.
Proof.
  revert old. induction new as [|r new IH]; intros old; cbn.
  - by intros [= <-].
  - destruct (add_resource_to_list old r) as [res|] eqn:Hres; [|done]. cbn.
    intros Hrs Hold. eapply IH; [done|]. by eapply add_resource_to_list_unique.
Qed.

(** C4, as the code has it.  After a reconciliation the submitted resource
    list has unique urls provided the list that is kept verbatim has: the
    draft's list when [drop_existing_resources], the stored record's list
    otherwise (duplicates among the new resources are then filtered). *)
Theorem reconcile_keeps_urls_unique {St} (handle : St → call → St * result package)
    σ σ1 draft existing n old new (ow drop : bool) :
  fields draft !! "name" = Some n →
  resources draft = Some new →
  handle σ (PackageShow n) = (σ1, Ok existing) →
  resources existing = Some old →
  unique_urls (if drop then new else old) →
  writes_have_unique_urls (upsert_dataset handle (Some draft) ow drop σ).1.2.
Proof.
  intros Hn Hnew Hshow Hold Huniq c rs.
  rewrite (upsert_dataset_found handle _ _ _ _ _ _ ow drop Hn Hnew Hshow).
  destruct (if drop then Ok new else add_resources_to_list old new)
    as [rs'|e] eqn:Hrs.
  - rewrite (reconcile_ok draft existing old new rs' ow drop Hold Hrs).
    cbn [fst snd]. rewrite writes_show_update. intros ->%list_elem_of_singleton [= <-].
    destruct drop; [by injection Hrs as <-|].
    by eapply add_resources_to_list_unique.
  - unfold reconcile, get_resources. rewrite Hold. cbn.
    destruct drop; rewrite Hrs; cbn; by intros ?%elem_of_nil.
Qed.

Lemma reconcile_keeps_urls_unique_witness :
  writes_have_unique_urls
    (upsert_dataset MemoryCatalog.handle
       (Some (package_named "roads" [url_only "b"; url_only "b"; url_only "c"]))
       false false
       (catalog_with (stored_roads [url_only "a"; url_only "b"]))).1.2.
Proof.
  apply (reconcile_keeps_urls_unique MemoryCatalog.handle
    (catalog_with (stored_roads [url_only "a"; url_only "b"]))
    (catalog_with (stored_roads [url_only "a"; url_only "b"]))
    (package_named "roads" [url_only "b"; url_only "b"; url_only "c"])
    (stored_roads [url_only "a"; url_only "b"])
    (VStr "roads") [url_only "a"; url_only "b"]
    [url_only "b"; url_only "b"; url_only "c"] false false).
  - reflexivity.
  - reflexivity.
  - reflexivity.
  - reflexivity.
  - unfold unique_urls. apply (bool_decide_unpack _). vm_compute. exact I.
Defined.

(** C4 as stated fails: in drop mode a draft that lists one url twice is
    submitted verbatim, and in merge mode a stored record that lists one url
    twice keeps both. *)
Lemma reconcile_submits_duplicate_urls :
  ¬ writes_have_unique_urls
      (upsert_dataset MemoryCatalog.handle
         (Some (package_named "roads" [url_only "a"; url_only "a"]))
         true true
         (catalog_with (stored_roads []))).1.2
  ∧ ¬ writes_have_unique_urls
      (upsert_dataset MemoryCatalog.handle
         (Some (package_named "roads" [url_only "c"]))
         true false
         (catalog_with (stored_roads [url_only "a"; url_only "a"]))).1.2.
Proof.
  split; intros H.
  - specialize (H (PackageUpdate (package_named "roads" [url_only "a"; url_only "a"]))
                  [url_only "a"; url_only "a"]).
    assert (Hdup : ¬ unique_urls [url_only "a"; url_only "a"]).
    { unfold unique_urls. apply (proj1 (bool_decide_eq_false _)). by vm_compute. }
    apply Hdup, H; [|done]. apply list_elem_of_In. vm_compute. by left.
  - specialize (H (PackageUpdate
                     (package_named "roads" [url_only "a"; url_only "a"; url_only "c"]))
                  [url_only "a"; url_only "a"; url_only "c"]).
    assert (Hdup : ¬ unique_urls [url_only "a"; url_only "a"; url_only "c"]).
    { unfold unique_urls. apply (proj1 (bool_decide_eq_false _)). by vm_compute. }
    apply Hdup, H; [|done]. apply list_elem_of_In. vm_compute. by left.
Qed.

(** ** Metadata of the submitted write *)

(** C9.  With [overwrite_metadata=False] and an existing record found, the
    write that is submitted is the stored record with only its resources
    replaced by the computed resource list: every metadata field is the
    stored one, none is the draft's. *)
Theorem upsert_keeps_existing_metadata {St}
    (handle : St → call → St * result package)
    σ σ1 draft existing n old new rs (drop : bool) :
  fields draft !! "name" = Some n →
  resources draft = Some new →
  handle σ (PackageShow n) = (σ1, Ok existing) →
  resources existing = Some old →
  (if drop then Ok new else add_resources_to_list old new) = Ok rs →
  writes (upsert_dataset handle (Some draft) false drop σ).1.2
  = [PackageUpdate {| fields := fields existing; resources := Some rs |}].
Proof.
  intros Hn Hnew Hshow Hold Hrs.
  rewrite (upsert_dataset_found handle _ _ _ _ _ _ false drop Hn Hnew Hshow).
  by rewrite (reconcile_ok draft existing old new rs false drop Hold Hrs).
Qed.

Lemma upsert_keeps_existing_metadata_witness :
  writes (upsert_dataset MemoryCatalog.handle
            (Some (package_named "roads" [url_only "b"; url_only "c"]))
            false true
            (catalog_with (stored_roads [url_only "a"]))).1.2
  = [PackageUpdate
       {| fields := fields (stored_roads [url_only "a"]);
          resources := Some [url_only "b"; url_only "c"] |}].
Proof.
  apply (upsert_keeps_existing_metadata MemoryCatalog.handle
    (catalog_with (stored_roads [url_only "a"]))
    (catalog_with (stored_roads [url_only "a"]))
    (package_named "roads" [url_only "b"; url_only "c"])
    (stored_roads [url_only "a"]) (VStr "roads")
    [url_only "a"] [url_only "b"; url_only "c"] [url_only "b"; url_only "c"] true).
  - reflexivity.
  - reflexivity.
  - reflexivity.
  - reflexivity.
  - reflexivity.
Defined.

(** ** Failures of the catalog client *)

(** Case analysis on membership in an explicit list. *)
Ltac elim_in H :=
  repeat match type of H with
         | _ ∈ _ :: _ => apply elem_of_cons in H as [H|H]
         | _ ∈ [] => by apply elem_of_nil in H
         end.

(** Whatever makes the probe fail, the run goes on to create the draft as
    it is. *)
Lemma probe_failure_leads_to_create {St}
    (handle : St → call → St * result package)
    (draft : option package) (ow drop : bool) σ σ' trace res n e :
  upsert_dataset handle draft ow drop σ = (σ', trace, res) →
  (PackageShow n, Raise e) ∈ trace →
  ∃ d, draft = Some d ∧ writes trace = [PackageCreate d].
Proof.
  unfold upsert_dataset. destruct draft as [d|].
  2:{ intros [= <- <- <-] Hin. by elim_in Hin. }
  destruct (fields d !! "name") as [n'|].
  2:{ intros [= <- <- <-] Hin. by elim_in Hin. }
  destruct (get_resources d) as [new|e0].
  2:{ intros [= <- <- <-] Hin. by elim_in Hin. }
  destruct (handle σ (PackageShow n')) as [σ1 [existing|e1]].
  - destruct (reconcile d existing new ow drop) as [pkg|e2].
    + destruct (handle σ1 (PackageUpdate pkg)) as [σ2 updated].
      intros [= <- <- <-] Hin. elim_in Hin; simplify_eq.
    + intros [= <- <- <-] Hin. elim_in Hin; simplify_eq.
  - destruct (handle σ1 (PackageCreate d)) as [σ2 created].
    intros [= <- <- <-] _. by exists d.
Qed.

(** C8, as the code has it.  A create or update call that is rejected
    raises the client's own exception to the caller, unwrapped, and that
    call is the only write of the run. *)
Theorem upsert_write_failure_propagates {St}
    (handle : St → call → St * result package)
    (draft : option package) (ow drop : bool) σ σ' trace res c e :
  upsert_dataset handle draft ow drop σ = (σ', trace, res) →
  (c, Raise e) ∈ trace →
  is_write c →
  res = Raise e ∧ writes trace = [c].
Proof.
  unfold upsert_dataset. destruct draft as [d|].
  2:{ intros [= <- <- <-] Hin. by elim_in Hin. }
  destruct (fields d !! "name") as [n|].
  2:{ intros [= <- <- <-] Hin. by elim_in Hin. }
  destruct (get_resources d) as [new|e0].
  2:{ intros [= <- <- <-] Hin. by elim_in Hin. }
  destruct (handle σ (PackageShow n)) as [σ1 [existing|e1]].
  - destruct (reconcile d existing new ow drop) as [pkg|e2].
    + destruct (handle σ1 (PackageUpdate pkg)) as [σ2 updated].
      intros [= <- <- <-] Hin Hw. elim_in Hin; simplify_eq; done.
    + intros [= <- <- <-] Hin Hw. elim_in Hin; simplify_eq; done.
  - destruct (handle σ1 (PackageCreate d)) as [σ2 created].
    intros [= <- <- <-] Hin Hw. elim_in Hin; simplify_eq; done.
Qed.

Lemma upsert_write_failure_propagates_witness :
  Raise (CkanError ValidationError)
  = Raise (A := option package) (CkanError ValidationError)
  ∧ writes [(PackageShow (VStr "roads"), Raise (CkanError NotFound));
            (PackageCreate (package_named "roads" [url_only "a"]),
             Raise (CkanError ValidationError))]
    = [PackageCreate (package_named "roads" [url_only "a"])].
Proof.
  apply (upsert_write_failure_propagates RejectingCatalog.handle
    (Some (package_named "roads" [url_only "a"])) true true tt tt
    [(PackageShow (VStr "roads"), Raise (CkanError NotFound));
     (PackageCreate (package_named "roads" [url_only "a"]),
      Raise (CkanError ValidationError))]
    (Raise (CkanError ValidationError))
    (PackageCreate (package_named "roads" [url_only "a"]))
    (CkanError ValidationError)).
  - reflexivity.
  - apply elem_of_cons. right. apply elem_of_cons. by left.
  - exact I.
Defined.

(** C8 as stated fails: a probe that times out is taken for a missing
    record, the draft is created, and the run returns normally. *)
Lemma probe_timeout_is_not_propagated :
  ¬ probe_failure_propagates TimeoutCatalog.handle
      (package_named "roads" [url_only "a"]) (VStr "roads") true true tt.
Proof.
  intros H. destruct (H CKANAPIError eq_refl) as [[e He] _]; [done|].
  vm_compute in He. discriminate He.
Qed.

(** ** The dataset key of a mapped layer *)

(** Case analysis on the next step of a computation in [result]. *)
Ltac step_result :=
  match goal with
  | |- context [rbind ?r _] =>
      let E := fresh "E" in destruct r eqn:E; cbn [rbind]
  end.

(** C10, as the code has it.  The key computed from the layer's name (or,
    failing that, its id) is not used: the [name] of the record is the slug
    of the title that [parse_name] extracts from the display title, so
    layers with the same display title receive the same dataset key. *)
Theorem dataset_key_is_title_slug (slugify : string → string) {coord : Type}
    (json_dumps : list (list (list (list coord))) → string)
    now (l : layer (coord := coord)) wxs_url org_dict group_dict pdf_dict
    fallback_org_id res_format pkg :
  wxs_to_dict slugify json_dumps now l wxs_url org_dict group_dict pdf_dict
    fallback_org_id res_format = Ok (Some pkg) →
  (∃ t n dt, parse_name now (b (layer_title l)) = Ok (t, Some n, dt)
             ∧ fields pkg !! "name" = Some (VStr (slugify (str t))))
  ∧ (∀ (l' : layer (coord := coord)) wxs_url' org_dict' group_dict' pdf_dict'
       fallback_org_id' res_format' pkg',
       layer_title l' = layer_title l →
       wxs_to_dict slugify json_dumps now l' wxs_url' org_dict' group_dict'
         pdf_dict' fallback_org_id' res_format' = Ok (Some pkg') →
       fields pkg' !! "name" = fields pkg !! "name").
Proof.
  assert (Hkey : ∀ (l0 : layer (coord := coord)) u o g p f r pkg0,
    wxs_to_dict slugify json_dumps now l0 u o g p f r = Ok (Some pkg0) →
    ∃ t n dt, parse_name now (b (layer_title l0)) = Ok (t, Some n, dt)
              ∧ fields pkg0 !! "name" = Some (VStr (slugify (str t)))).
  { intros l0 u o g p f r pkg0. unfold wxs_to_dict.
    step_result; [|done].
    destruct (parse_name now (b (layer_title l0))) as [[[t [n|]] dt]|] eqn:Hp;
      cbn [rbind]; [|done|done].
    step_result; [|done]. step_result; [|done].
    intros [= <-]. exists t, n, dt. split; [done|]. cbn [fields].
    destruct (p !! str n) as [pdf_url|]; [destruct (truthy pdf_url)|];
      by simplify_map_eq. }
  intros H. split; [by eapply Hkey|].
  intros l' u o g p f r pkg' Ht H'.
  apply Hkey in H as (t & n & dt & Hp & ->).
  apply Hkey in H' as (t' & n' & dt' & Hp' & ->).
  rewrite Ht, Hp in Hp'. by injection Hp' as <- _ _.
Qed.

Lemma dataset_key_is_title_slug_witness :
  ∃ t n dt,
    parse_name example_now (b (layer_title (roads_layer "LGATE-012" "slip:LGATE-012")))
    = Ok (t, Some n, dt)
    ∧ fields roads_package !! "name" = Some (VStr (AsciiSlug.slugify (str t))).
Proof.
  refine (proj1 (dataset_key_is_title_slug AsciiSlug.slugify (fun _ => "{}")%string
    example_now (roads_layer "LGATE-012" "slip:LGATE-012")
    "https://example.org/ows" ∅ ∅ ∅ None "WMS" roads_package _)).
  vm_compute. reflexivity.
Defined.

(** C10 as stated fails: two layers with the same display title and
    different identifier fields are both given the key [roads]. *)
Lemma same_title_same_dataset_key :
  ¬ identifiers_separate_keys example_mapper
      (roads_layer "LGATE-012" "slip:LGATE-012")
      (roads_layer "LGATE-099" "slip:LGATE-099")
  ∧ dataset_key (example_mapper (roads_layer "LGATE-012" "slip:LGATE-012"))
    = Some (VStr "roads")
  ∧ dataset_key (example_mapper (roads_layer "LGATE-099" "slip:LGATE-099"))
    = Some (VStr "roads").
Proof.
  split_and!; [|by vm_compute..].
  intros H. apply H; [done|done|done|by vm_compute].
Qed.

(** ** Indexing from the end *)

Lemma index_from_end_app {A} (pre suf : list A) x :
  Py.index_from_end (pre ++ x :: suf) (S (length suf)) = Ok x.
Proof.
  unfold Py.index_from_end. rewrite length_app. cbn [length].
  replace (length pre + S (length suf) - S (length suf)) with (length pre) by lia.
  rewrite list_lookup_middle by done.
  rewrite andb_true_intro; [done|].
  split; [done|]. apply Nat.leb_le. lia.
Qed.

Lemma index_from_end_app_r {A} (pre suf : list A) k :
  1 ≤ k ≤ length suf →
  Py.index_from_end (pre ++ suf) k = Py.index_from_end suf k.
Proof.
  intros Hk. unfold Py.index_from_end. rewrite length_app.
  rewrite lookup_app_r by lia.
  replace (length pre + length suf - k - length pre) with (length suf - k) by lia.
  destruct (Nat.leb_spec 1 k); [|lia].
  destruct (Nat.leb_spec k (length pre + length suf)); [|lia].
  destruct (Nat.leb_spec k (length suf)); [done|lia].
Qed.

Lemma index_from_end_last {A} (p : list A) :
  Py.index_from_end p 1 = match last p with
                          | Some x => Ok x
                          | None => Raise IndexError
                          end.
Proof.
  destruct p as [|x p _] using rev_ind; [done|].
  pose proof (index_from_end_app p [] x) as H. cbn [length] in H.
  by rewrite H, last_snoc.
Qed.

Lemma slice_to_app {A} (pre suf : list A) :
  Py.slice_to (pre ++ suf)
    (Z.of_nat (length (pre ++ suf)) - Z.of_nat (length suf)) = pre.
Proof.
  unfold Py.slice_to. rewrite length_app.
  destruct (Z.ltb_spec (Z.of_nat (length pre + length suf) - Z.of_nat (length suf)) 0);
    [lia|].
  replace (Z.to_nat _) with (length pre) by lia.
  by rewrite take_app_length.
Qed.

Lemma slice_to_all {A} (p : list A) :
  Py.slice_to p (Z.of_nat (length p) - 0) = p.
Proof.
  unfold Py.slice_to. destruct (Z.ltb_spec (Z.of_nat (length p) - 0) 0); [lia|].
  replace (Z.to_nat _) with (length p) by lia. apply firstn_all.
Qed.

(** ** [parse_name]: failures *)

Lemma parse_name_no_token now text :
  Py.split (normalize text) = [] → parse_name now text = Raise IndexError.
Proof. intros H. unfold parse_name. by rewrite H. Qed.

Lemma parse_name_one_token now text tok :
  Py.split (normalize text) = [tok] → Py.startswith "(" tok = false →
  parse_name now text = Raise IndexError.
Proof. intros H Hs. unfold parse_name. rewrite H. cbn. by rewrite Hs. Qed.

(** C2.  [parse_name] is not total: it raises [IndexError] on the empty
    text, on blank text, on a title of one word, and on a title of two
    words that ends in a closing parenthesis. *)
Theorem parse_name_raises_on_short_titles now :
  parse_name now (b "") = Raise IndexError
  ∧ parse_name now (b "   ") = Raise IndexError
  ∧ parse_name now (b "Mosaic") = Raise IndexError
  ∧ parse_name now (b "Virtual Mosaic)") = Raise IndexError.
Proof. split_and!; by vm_compute. Qed.

(** ** [parse_name]: normalisation *)

Lemma normalize_cons c d s :
  normalize (c :: d :: s)
  = if Py.is_lower c && Ascii.eqb d "(" then " "%char :: "("%char :: normalize s
    else c :: normalize (d :: s).
Proof. reflexivity. Qed.

Lemma normalize_step c rest :
  normalize (c :: "("%char :: rest)
  = if Py.is_lower c then " "%char :: "("%char :: normalize rest
    else c :: normalize ("("%char :: rest).
Proof. rewrite normalize_cons. by destruct (Py.is_lower c). Qed.

Lemma normalize_length s : length (normalize s) = length s.
Proof.
  enough (H : ∀ n s, length s ≤ n → length (normalize s) = length s)
    by (by eapply H).
  intros n. induction n as [|n IH]; intros [|c [|d s']] Hn;
    try done; try (cbn in Hn; lia).
  rewrite normalize_cons. cbn [length] in Hn.
  destruct (Py.is_lower c && Ascii.eqb d "("); cbn [length].
  - rewrite IH; [done|lia].
  - rewrite (IH (d :: s')); [done|cbn [length]; lia].
Qed.

(** C3.  The normalisation does not insert a blank: it replaces the
    lowercase letter before the parenthesis by one, so the text keeps its
    length and loses that letter, as in "Rivers(" that becomes "River (". *)
Theorem normalize_replaces_the_letter :
  normalize (b "Overview Rivers(LGATE-053)") = b "Overview River (LGATE-053)"
  ∧ (∀ s, length (normalize s) = length s)
  ∧ (∀ c rest,
       normalize (c :: "("%char :: rest)
       = if Py.is_lower c then " "%char :: "("%char :: normalize rest
         else c :: normalize ("("%char :: rest)).
Proof.
  split_and!; [by vm_compute|apply normalize_length|apply normalize_step].
Qed.

(** ** [parse_name]: the identifier *)

(** C7, as the code has it.  When [parse_name] returns, the identifier is
    [None] exactly when the last token of the normalised text does not end
    with a closing parenthesis, whatever the other tokens are. *)
Theorem identifier_none_iff_last_token_open now text t n dt :
  parse_name now text = Ok (t, n, dt) →
  (n = None ↔ ∃ y, last (Py.split (normalize text)) = Some y
                   ∧ Py.endswith ")" y = false).
Proof.
  unfold parse_name. rewrite index_from_end_last.
  destruct (last (Py.split (normalize text))) as [y|]; [|done]. cbn [rbind].
  step_result; [|done].
  destruct (Py.endswith ")" y) eqn:Hend.
  - step_result; [|done]. intros [= <- <- <-].
    split; [done|]. by intros (? & [= <-] & ?); congruence.
  - intros [= <- <- <-]. split; [|done]. intros _. by exists y.
Qed.

Lemma identifier_none_iff_last_token_open_witness :
  (@None bytes = None ↔
   ∃ y, last (Py.split (normalize (b "Misc (Point) Transport"))) = Some y
        ∧ Py.endswith ")" y = false).
Proof.
  apply (identifier_none_iff_last_token_open example_now
           (b "Misc (Point) Transport") (b "Misc (Point) Transport") None
           example_now).
  vm_compute. reflexivity.
Defined.

(** C7 as stated fails: "Misc (Point) Transport" holds a token in
    parentheses and is given no identifier. *)
Lemma parenthesized_token_without_identifier :
  ¬ identifier_found_when_parenthesized example_now (b "Misc (Point) Transport").
Proof.
  intros H.
  by apply (H eq_refl (b "Misc (Point) Transport") None example_now).
Qed.

(** ** [parse_name]: the date pair *)

(** The run of [parse_name] on a token list whose last token is not an
    opening parenthetical: the identifier is found ... *)
Lemma parse_name_three_tokens now text pre a x y :
  Py.split (normalize text) = pre ++ [a; x; y] →
  Py.startswith "(" y = false →
  Py.endswith ")" y = true →
  parse_name now text
  = Ok (Py.join pre, Some (Py.lower (Py.remove ")" (Py.remove "(" a))),
        default now (reformat_date
                       (Py.remove "(" x ++ " "%char :: Py.remove ")" y))).
Proof.
  intros Hp Hstart Hend. unfold parse_name. rewrite Hp.
  repeat (rewrite (index_from_end_app_r pre [a; x; y]) by (cbn; lia);
          cbn [Py.index_from_end length lookup list_lookup Nat.leb Nat.sub
               andb rbind];
          rewrite ?Hstart, ?Hend).
  change (Z.of_nat 3) with (Z.of_nat (length [a; x; y])).
  by rewrite (slice_to_app pre [a; x; y]).
Qed.

(** ... or it is not, and the title is the whole text. *)
Lemma parse_name_two_tokens now text pre x y :
  Py.split (normalize text) = pre ++ [x; y] →
  Py.startswith "(" y = false →
  Py.endswith ")" y = false →
  parse_name now text
  = Ok (Py.join (pre ++ [x; y]), None,
        default now (reformat_date
                       (Py.remove "(" x ++ " "%char :: Py.remove ")" y))).
Proof.
  intros Hp Hstart Hend. unfold parse_name. rewrite Hp.
  repeat (rewrite (index_from_end_app_r pre [x; y]) by (cbn; lia);
          cbn [Py.index_from_end length lookup list_lookup Nat.leb Nat.sub
               andb rbind];
          rewrite ?Hstart, ?Hend).
  by rewrite slice_to_all.
Qed.

Lemma parse_name_two_tokens_closed now text x y :
  Py.split (normalize text) = [x; y] →
  Py.startswith "(" y = false →
  Py.endswith ")" y = true →
  parse_name now text = Raise IndexError.
Proof.
  intros Hp Hstart Hend. unfold parse_name. rewrite Hp.
  cbn [Py.index_from_end length lookup list_lookup Nat.leb Nat.sub andb rbind].
  rewrite Hstart.
  cbn [Py.index_from_end length lookup list_lookup Nat.leb Nat.sub andb rbind].
  by rewrite Hend.
Qed.

(** C5.  When the last token does not start with an opening parenthesis,
    the code takes the last two tokens for the date and the time: with
    their parentheses removed they are parsed as "DD-MM-YYYY HH:MM:SS" and
    when that fails the current timestamp is used; when the last token ends
    with a closing parenthesis the identifier is the token three from the
    end, in lower case and without parentheses, and three tokens are cut
    off the title.  It does so only where these tokens exist: on a text of
    one token, and on a text of two tokens whose last ends with a closing
    parenthesis, it raises [IndexError] where the date pair or the
    identifier is read. *)
Theorem parse_name_date_pair_or_index_error now text y :
  Py.startswith "(" y = false →
  let dt x := default now (reformat_date
                             (Py.remove "(" x ++ " "%char :: Py.remove ")" y)) in
  (Py.split (normalize text) = [y] → parse_name now text = Raise IndexError)
  ∧ (∀ x, Py.split (normalize text) = [x; y] → Py.endswith ")" y = true →
       parse_name now text = Raise IndexError)
  ∧ (∀ pre a x, Py.split (normalize text) = pre ++ [a; x; y] →
       Py.endswith ")" y = true →
       parse_name now text
       = Ok (Py.join pre, Some (Py.lower (Py.remove ")" (Py.remove "(" a))), dt x))
  ∧ (∀ pre x, Py.split (normalize text) = pre ++ [x; y] →
       Py.endswith ")" y = false →
       parse_name now text = Ok (Py.join (pre ++ [x; y]), None, dt x))
  ∧ reformat_date (b "18-10-2012 16:54:00") = Some (b "2012-10-18T16:54:00")
  ∧ reformat_date (b "18-13-2012 16:54:00") = None.
Proof.
  intros Hstart dt. split_and!.
  - intros Hp. by eapply parse_name_one_token.
  - intros x Hp Hend. by eapply parse_name_two_tokens_closed.
  - intros pre a x Hp Hend.
    exact (parse_name_three_tokens now text pre a x y Hp Hstart Hend).
  - intros pre x Hp Hend.
    exact (parse_name_two_tokens now text pre x y Hp Hstart Hend).
  - by vm_compute.
  - by vm_compute.
Qed.

Lemma parse_name_date_pair_or_index_error_witness :
  parse_name example_now (b "Virtual Mosaic)") = Raise IndexError.
Proof.
  refine (proj1 (proj2 (parse_name_date_pair_or_index_error example_now
    (b "Virtual Mosaic)") (b "Mosaic)") _)) (b "Virtual") _ _).
  - reflexivity.
  - reflexivity.
  - reflexivity.
Defined.

(** ** [strptime] on a well-formed date text *)

Section DateText.
Import Re Datetime.
Local Open Scope N_scope.

(** Division and remainder by constants, for [lia]. *)
Ltac Zify.zify_post_hook ::= Z.to_euclidean_division_equations.

Lemma N_lt_10_cases (a : N) :
  a < 10 → a = 0 ∨ a = 1 ∨ a = 2 ∨ a = 3 ∨ a = 4 ∨ a = 5 ∨ a = 6 ∨ a = 7
           ∨ a = 8 ∨ a = 9.
Proof. lia. Qed.

(** What the parser needs to know of a decimal digit. *)
Lemma digit_char_facts (a : N) :
  a < 10 →
  Py.is_digit (digit_char a) = true
  ∧ Py.is_space (digit_char a) = false
  ∧ Py.is_lower (digit_char a) = false
  ∧ Ascii.eqb (digit_char a) "(" = false
  ∧ Ascii.eqb (digit_char a) ")" = false
  ∧ N_of_ascii (digit_char a) - 48 = a.
Proof.
  intros Ha.
  destruct (N_lt_10_cases a Ha) as [->|[->|[->|[->|[->|[->|[->|[->|[->| ->]]]]]]]]];
    by vm_compute.
Qed.

Lemma forall_below (P : N → Prop) (n : nat) :
  (∀ k : nat, (k < n)%nat → P (N.of_nat k)) → ∀ x, x < N.of_nat n → P x.
Proof.
  intros H x Hx. rewrite <- (N2Nat.id x). apply H. lia.
Qed.

(** Decides a bounded field by running the matcher on each of its texts. *)
Tactic Notation "field_cases" integer(n) :=
  intros A rest caps k res Hk;
  do n (match goal with
        | i : nat |- _ =>
            destruct i as [|i];
            [first [lia | vm_compute; vm_compute in Hk; rewrite Hk; reflexivity]|]
        end);
  lia.

Lemma re_d_first d : 1 ≤ d ≤ 31 → first_match re_d (pad2 d).
Proof.
  intros [Hlo Hhi]. revert Hlo.
  refine (forall_below (λ d, 1 ≤ d → first_match re_d (pad2 d)) 32 _ d _); [|lia].
  intros i Hi Hlo. field_cases 32.
Qed.

Lemma re_m_first m : 1 ≤ m ≤ 12 → first_match re_m (pad2 m).
Proof.
  intros [Hlo Hhi]. revert Hlo.
  refine (forall_below (λ m, 1 ≤ m → first_match re_m (pad2 m)) 13 _ m _); [|lia].
  intros i Hi Hlo. field_cases 13.
Qed.

Lemma re_H_first H : H ≤ 23 → first_match re_H (pad2 H).
Proof.
  intros Hhi.
  refine (forall_below (λ H, first_match re_H (pad2 H)) 24 _ H _); [|lia].
  intros i Hi. field_cases 24.
Qed.

Lemma re_M_first M : M ≤ 59 → first_match re_M (pad2 M).
Proof.
  intros Hhi.
  refine (forall_below (λ M, first_match re_M (pad2 M)) 60 _ M _); [|lia].
  intros i Hi. field_cases 60.
Qed.

Lemma re_S_first S : S ≤ 59 → first_match re_S (pad2 S).
Proof.
  intros Hhi.
  refine (forall_below (λ S, first_match re_S (pad2 S)) 60 _ S _); [|lia].
  intros i Hi. field_cases 60.
Qed.

Lemma digit_first a : a < 10 → first_match digit [digit_char a].
Proof.
  intros Ha A rest caps k res Hk. cbn.
  by destruct (digit_char_facts a Ha) as (-> & _).
Qed.

Lemma first_match_seq r1 r2 w1 w2 :
  first_match r1 w1 → first_match r2 w2 → first_match (Seq r1 r2) (w1 ++ w2).
Proof.
  intros H1 H2 A rest caps k res Hk. cbn [rmatch].
  rewrite <- (assoc_L (++)). apply H1. by apply H2.
Qed.

Lemma re_Y_first y : y < 10000 → first_match re_Y (pad4 y).
Proof.
  intros Hy. unfold re_Y, pad4.
  apply (first_match_seq digit _ [_] [_; _; _]); [apply digit_first; lia|].
  apply (first_match_seq digit _ [_] [_; _]); [apply digit_first; lia|].
  apply (first_match_seq digit _ [_] [_]); apply digit_first; lia.
Qed.

(** A group adds the text it matched to the groups. *)
Lemma rmatch_group {A} name r w rest caps (k : bytes → captures → option A) res :
  first_match r w →
  k rest ((name, w) :: caps) = Some res →
  rmatch (Grp name r) (w ++ rest) caps k = Some res.
Proof.
  intros Hr Hk. cbn [rmatch]. apply Hr.
  rewrite length_app, Nat.add_sub, take_app_length. done.
Qed.

Lemma rmatch_seq {A} r1 r2 s caps (k : bytes → captures → option A) :
  rmatch (Seq r1 r2) s caps k
  = rmatch r1 s caps (λ s' caps', rmatch r2 s' caps' k).
Proof. reflexivity. Qed.

Lemma rmatch_chr {A} c rest caps (k : bytes → captures → option A) :
  rmatch (Chr c) (c :: rest) caps k = k rest caps.
Proof. cbn. by rewrite Ascii.eqb_refl. Qed.

Lemma rmatch_blank {A} x rest caps (k : bytes → captures → option A) :
  Py.is_space x = false →
  rmatch (Plus Py.is_space) (" "%char :: x :: rest) caps k = k (x :: rest) caps.
Proof. intros Hx. cbn. by rewrite Hx. Qed.

Lemma int_pad2 n : n < 100 → int (pad2 n) = Some n.
Proof.
  intros Hn. unfold int, pad2.
  destruct (digit_char_facts (n / 10)) as (Hd1 & Hs1 & _ & _ & _ & Hv1); [lia|].
  destruct (digit_char_facts (n mod 10)) as (Hd2 & _ & _ & _ & _ & Hv2); [lia|].
  cbn [lstrip]. rewrite Hs1. cbn [forallb length Nat.eqb negb andb fold_left].
  rewrite Hd1, Hd2, Hv1, Hv2. cbn [andb]. f_equal. lia.
Qed.

Lemma int_pad4 n : n < 10000 → int (pad4 n) = Some n.
Proof.
  intros Hn. unfold int, pad4.
  destruct (digit_char_facts (n / 1000)) as (Hd1 & Hs1 & _ & _ & _ & Hv1); [lia|].
  destruct (digit_char_facts (n / 100 mod 10)) as (Hd2 & _ & _ & _ & _ & Hv2); [lia|].
  destruct (digit_char_facts (n / 10 mod 10)) as (Hd3 & _ & _ & _ & _ & Hv3); [lia|].
  destruct (digit_char_facts (n mod 10)) as (Hd4 & _ & _ & _ & _ & Hv4); [lia|].
  cbn [lstrip]. rewrite Hs1. cbn [forallb length Nat.eqb negb andb fold_left].
  rewrite Hd1, Hd2, Hd3, Hd4, Hv1, Hv2, Hv3, Hv4. cbn [andb]. f_equal. lia.
Qed.

(** The ranges the [datetime] constructor checks. *)
Lemma make_Some y m d H M S dt :
  make y m d H M S = Some dt →
  dt = mk_datetime y m d H M S
  ∧ 1 ≤ y ≤ 9999 ∧ 1 ≤ m ≤ 12 ∧ 1 ≤ d ≤ 31 ∧ H ≤ 23 ∧ M ≤ 59 ∧ S ≤ 59.
Proof.
  unfold make.
  destruct (_ && _) eqn:Hb; [|done]. intros [= <-].
  repeat (apply andb_prop in Hb as [Hb ?]).
  repeat match goal with
         | H : (_ <=? _) = true |- _ => apply N.leb_le in H
         end.
  assert (days_in_month y m ≤ 31).
  { unfold days_in_month. repeat case_match; lia. }
  split_and!; try done; lia.
Qed.

(** [strptime] reads a valid date back from its own zero-padded text. *)
Lemma strptime_date_time y m d H M S dt :
  make y m d H M S = Some dt →
  strptime (date_text d m y ++ " "%char :: time_text H M S) = Some dt.
Proof.
  intros Hmake.
  destruct (make_Some _ _ _ _ _ _ _ Hmake) as (_ & Hy & Hm & Hd & HH & HM & HS).
  assert (Hmatch :
    match_prefix format_regex (date_text d m y ++ " "%char :: time_text H M S)
    = Some ([], [("S", pad2 S); ("M", pad2 M); ("H", pad2 H);
                 ("Y", pad4 y); ("m", pad2 m); ("d", pad2 d)])%string).
  { unfold match_prefix, format_regex, date_text, time_text.
    rewrite <- !(assoc_L (++)). cbn [app].
    rewrite <- !(assoc_L (++)). cbn [app].
    rewrite rmatch_seq. apply rmatch_group; [by apply re_d_first|].
    rewrite rmatch_seq, rmatch_chr.
    rewrite rmatch_seq. apply rmatch_group; [by apply re_m_first|].
    rewrite rmatch_seq, rmatch_chr.
    rewrite rmatch_seq. apply rmatch_group; [apply re_Y_first; lia|].
    rewrite rmatch_seq. unfold pad2 at 1. cbn [app].
    rewrite rmatch_blank by (apply digit_char_facts; lia).
    change (digit_char (H / 10) :: digit_char (H mod 10) :: ?rest)
      with (pad2 H ++ rest).
    rewrite rmatch_seq. apply rmatch_group; [by apply re_H_first|].
    rewrite rmatch_seq, rmatch_chr.
    rewrite rmatch_seq. apply rmatch_group; [by apply re_M_first|].
    rewrite rmatch_seq, rmatch_chr.
    rewrite <- (app_nil_r (pad2 S)). by apply rmatch_group; [apply re_S_first|]. }
  unfold strptime. rewrite Hmatch.
  cbn [group String.eqb Ascii.eqb Bool.eqb mbind option_bind].
  rewrite !int_pad2, int_pad4 by lia.
  cbn [mbind option_bind]. exact Hmake.
Qed.

(** The whole [try] block on a valid date from 1900 on. *)
Lemma reformat_date_valid y m d H M S dt :
  make y m d H M S = Some dt → 1900 ≤ y →
  reformat_date (date_text d m y ++ " "%char :: time_text H M S)
  = Some (iso_text y m d H M S).
Proof.
  intros Hmake Hy. unfold reformat_date.
  rewrite (strptime_date_time _ _ _ _ _ _ _ Hmake). cbn [mbind option_bind].
  destruct (make_Some _ _ _ _ _ _ _ Hmake) as (-> & _).
  unfold strftime. cbn [year month day hour minute second].
  destruct (N.ltb_spec y 1900); [lia|]. done.
Qed.
End DateText.

(** ** Tokens of a text *)

Lemma split_cons c d s :
  Py.split (c :: d :: s)
  = if Py.is_space c then Py.split (d :: s)
    else if Py.is_space d then [c] :: Py.split (d :: s)
    else match Py.split (d :: s) with
         | t :: ts => (c :: t) :: ts
         | [] => [[c]]
         end.
Proof. reflexivity. Qed.

Lemma split_starts c s :
  Py.is_space c = false → ∃ t ts, Py.split (c :: s) = (c :: t) :: ts.
Proof.
  revert c. induction s as [|d s IH]; intros c Hc.
  - exists [], []. cbn. by rewrite Hc.
  - rewrite split_cons, Hc. destruct (Py.is_space d) eqn:Hd; [by eexists _, _|].
    destruct (IH d Hd) as (t & ts & ->). by eexists _, _.
Qed.

Lemma split_blank c s : Py.is_space c = true → Py.split (c :: s) = Py.split s.
Proof. intros Hc. cbn. by rewrite Hc. Qed.

Lemma split_single c : Py.split [c] = if Py.is_space c then [] else [[c]].
Proof. reflexivity. Qed.

(** A blank separates the tokens before it from the tokens after it. *)
Lemma split_app_space s1 c s2 :
  Py.is_space c = true → Py.split (s1 ++ c :: s2) = Py.split s1 ++ Py.split s2.
Proof.
  intros Hc. induction s1 as [|a [|d s1] IH].
  - cbn [app]. by rewrite (split_blank c s2 Hc).
  - cbn [app]. rewrite split_cons, Hc, split_single, (split_blank c s2 Hc).
    by destruct (Py.is_space a).
  - cbn [app] in *. rewrite !split_cons.
    destruct (Py.is_space a); [done|].
    destruct (Py.is_space d) eqn:Hd; [by rewrite IH|].
    rewrite IH. by destruct (split_starts d s1 Hd) as (t & ts & ->).
Qed.

(** A text without blanks is one token. *)
Lemma split_token c s : no_space (c :: s) → Py.split (c :: s) = [c :: s].
Proof.
  revert c. induction s as [|d s IH]; intros c [Hc Hs]%Forall_cons.
  - cbn. by rewrite Hc.
  - rewrite split_cons, Hc. pose proof Hs as [Hd _]%Forall_cons.
    by rewrite Hd, (IH d Hs).
Qed.

(** ** Texts the normalisation leaves alone *)

Lemma has_lower_paren_cons c d s :
  has_lower_paren (c :: d :: s)
  = (Py.is_lower c && Ascii.eqb d "(") || has_lower_paren (d :: s).
Proof. reflexivity. Qed.

Lemma normalize_clean s : has_lower_paren s = false → normalize s = s.
Proof.
  induction s as [|c [|d s] IH]; [done|done|].
  rewrite has_lower_paren_cons, normalize_cons.
  intros [-> H]%orb_false_elim. by rewrite IH.
Qed.

(** Around a character that is neither a lowercase letter nor an opening
    parenthesis the two sides are searched apart. *)
Lemma has_lower_paren_app s1 c s2 :
  Py.is_lower c = false → Ascii.eqb c "(" = false →
  has_lower_paren (s1 ++ c :: s2) = has_lower_paren s1 || has_lower_paren s2.
Proof.
  intros Hl Hp. induction s1 as [|a [|d s1] IH].
  - cbn [app]. destruct s2; [done|]. by rewrite has_lower_paren_cons, Hl.
  - cbn [app]. rewrite has_lower_paren_cons, Hp, andb_false_r.
    change (has_lower_paren [a]) with false. cbn [orb].
    destruct s2; [done|]. by rewrite has_lower_paren_cons, Hl.
  - cbn [app] in *. rewrite !has_lower_paren_cons, IH. by rewrite orb_assoc.
Qed.

Lemma has_lower_paren_no_lower s :
  Forall (λ c, Py.is_lower c = false) s → has_lower_paren s = false.
Proof.
  induction s as [|c [|d s] IH]; [done|done|].
  intros [Hc Hs]%Forall_cons. by rewrite has_lower_paren_cons, Hc, IH.
Qed.

(** ** Removing a character *)

Lemma remove_cons_eq c s : Py.remove c (c :: s) = Py.remove c s.
Proof. unfold Py.remove. by rewrite filter_cons_False by (by intros ?). Qed.

Lemma remove_app c s1 s2 :
  Py.remove c (s1 ++ s2) = Py.remove c s1 ++ Py.remove c s2.
Proof. apply filter_app. Qed.

Lemma remove_absent c s :
  Forall (λ x, Ascii.eqb x c = false) s → Py.remove c s = s.
Proof.
  induction 1 as [|x s Hx _ IH]; [done|].
  unfold Py.remove in *. rewrite filter_cons_True; [by rewrite IH|].
  by apply Ascii.eqb_neq.
Qed.

(** ** Titles of the shape "T (ID) (DD-MM-YYYY HH:MM:SS)" *)

Section DatedTitle.
Import Datetime.
Local Open Scope N_scope.

Ltac Zify.zify_post_hook ::= Z.to_euclidean_division_equations.

Lemma digit_plain a : a < 10 → plain (digit_char a).
Proof. intros Ha. unfold plain. by destruct (digit_char_facts a Ha) as (_&->&->&->&->&_). Qed.

Lemma pad2_plain n : n < 100 → Forall plain (pad2 n).
Proof. intros Hn. unfold pad2. repeat constructor; apply digit_plain; lia. Qed.

Lemma pad4_plain n : n < 10000 → Forall plain (pad4 n).
Proof. intros Hn. unfold pad4. repeat constructor; apply digit_plain; lia. Qed.

Lemma date_text_plain d m y :
  d < 100 → m < 100 → y < 10000 → Forall plain (date_text d m y).
Proof.
  intros Hd Hm Hy. unfold date_text.
  apply Forall_app; split; [by apply pad2_plain|].
  apply Forall_cons; split; [by repeat split|].
  apply Forall_app; split; [by apply pad2_plain|].
  apply Forall_cons; split; [by repeat split|].
  by apply pad4_plain.
Qed.

Lemma time_text_plain H M S :
  H < 100 → M < 100 → S < 100 → Forall plain (time_text H M S).
Proof.
  intros HH HM HS. unfold time_text.
  apply Forall_app; split; [by apply pad2_plain|].
  apply Forall_cons; split; [by repeat split|].
  apply Forall_app; split; [by apply pad2_plain|].
  apply Forall_cons; split; [by repeat split|].
  by apply pad2_plain.
Qed.

Lemma has_lower_paren_skip c s :
  Py.is_lower c = false → has_lower_paren (c :: s) = has_lower_paren s.
Proof. intros Hc. destruct s; [done|]. by rewrite has_lower_paren_cons, Hc. Qed.

(** The text of a dated title, token by token. *)
Lemma dated_title_tokens T ID d m y H M S :
  dated_title T ID d m y H M S
  = T ++ " "%char :: ("("%char :: ID ++ [")"%char]) ++
         " "%char :: ("("%char :: date_text d m y) ++
         " "%char :: (time_text H M S ++ [")"%char]).
Proof.
  unfold dated_title, b. cbn [list_ascii_of_string app].
  by rewrite <- !(assoc_L (++)).
Qed.

(** C6, as the code has it.  A title "T (ID) (DD-MM-YYYY HH:MM:SS)" with a
    valid date from the year 1900 on is parsed into exactly T, the
    identifier in lower case without parentheses, and the date in ISO form,
    when T is made of words separated by single blanks, ID holds no blank,
    and neither holds a lowercase letter right before an opening
    parenthesis. *)
Theorem parse_name_dated_title now T ID d m y H M S dt :
  Py.join (Py.split T) = T →
  has_lower_paren T = false →
  has_lower_paren ID = false →
  no_space ID →
  make y m d H M S = Some dt →
  1900 ≤ y →
  parse_name now (dated_title T ID d m y H M S)
  = Ok (T, Some (Py.lower (Py.remove ")" (Py.remove "(" ID))),
        iso_text y m d H M S).
Proof.
  intros HT HlT HlID HsID Hmake Hy.
  destruct (make_Some _ _ _ _ _ _ _ Hmake) as (_ & Hy' & Hm & Hd & HH & HM & HS).
  pose proof (date_text_plain d m y) as Hdate.
  pose proof (time_text_plain H M S) as Htime.
  specialize (Hdate ltac:(lia) ltac:(lia) ltac:(lia)).
  specialize (Htime ltac:(lia) ltac:(lia) ltac:(lia)).
  set (tok1 := "("%char :: ID ++ [")"%char]).
  set (tok2 := "("%char :: date_text d m y).
  set (tok3 := time_text H M S ++ [")"%char]).
  assert (Htok3 : ∃ r, tok3 = digit_char (H / 10) :: r) by (by eexists).
  assert (Hs1 : no_space tok1).
  { apply Forall_cons; split; [done|]. apply Forall_app; split; [done|].
    by repeat constructor. }
  assert (Hs2 : no_space tok2).
  { apply Forall_cons; split; [done|].
    eapply Forall_impl; [exact Hdate|]. by intros c (?&_). }
  assert (Hs3 : no_space tok3).
  { apply Forall_app; split; [|by repeat constructor].
    eapply Forall_impl; [exact Htime|]. by intros c (?&_). }
  assert (Hnorm : normalize (dated_title T ID d m y H M S)
                  = dated_title T ID d m y H M S).
  { apply normalize_clean. rewrite dated_title_tokens. fold tok1 tok2 tok3.
    rewrite (has_lower_paren_app T) by done. rewrite HlT. cbn [orb].
    rewrite (has_lower_paren_app tok1) by done.
    apply orb_false_intro.
    - unfold tok1. rewrite has_lower_paren_skip by done.
      rewrite (has_lower_paren_app ID ")" []) by done. by rewrite HlID.
    - apply has_lower_paren_no_lower.
      apply Forall_app; split; [|apply Forall_cons; split; [done|]].
      + apply Forall_cons; split; [done|].
        eapply Forall_impl; [exact Hdate|]. by intros c (_&?&_).
      + apply Forall_app; split; [|by repeat constructor].
        eapply Forall_impl; [exact Htime|]. by intros c (_&?&_). }
  assert (Hsplit : Py.split (normalize (dated_title T ID d m y H M S))
                   = (Py.split T ++ [tok1]) ++ [tok2; tok3]).
  { rewrite Hnorm, dated_title_tokens. fold tok1 tok2 tok3.
    rewrite !split_app_space by done.
    unfold tok1 at 1, tok2 at 1. rewrite !split_token by done.
    destruct Htok3 as (r & Hr). rewrite Hr in Hs3 |- *.
    rewrite split_token by done. by rewrite <- (assoc_L (++)). }
  rewrite <- (assoc_L (++)) in Hsplit. cbn [app] in Hsplit.
  rewrite (parse_name_three_tokens now _ (Py.split T) tok1 tok2 tok3 Hsplit).
  2:{ destruct Htok3 as (r & Hr). rewrite Hr. cbn [Py.startswith].
      apply digit_char_facts. lia. }
  2:{ unfold Py.endswith, tok3. by rewrite last_snoc. }
  rewrite HT. do 3 f_equal.
  - unfold tok1. rewrite remove_cons_eq, !remove_app.
    rewrite (remove_absent "(" [")"%char]) by (by repeat constructor).
    rewrite remove_cons_eq. cbn [Py.remove filter list_filter]. by rewrite app_nil_r.
  - unfold tok2, tok3. rewrite remove_cons_eq, remove_app, remove_cons_eq.
    rewrite (remove_absent "(" (date_text d m y)), (remove_absent ")" (time_text H M S)).
    + cbn [Py.remove filter list_filter]. rewrite app_nil_r.
      by rewrite (reformat_date_valid _ _ _ _ _ _ _ Hmake Hy).
    + eapply Forall_impl; [exact Htime|]. by intros c (_&_&_&?).
    + eapply Forall_impl; [exact Hdate|]. by intros c (_&_&?&_).
Qed.
End DatedTitle.

Lemma parse_name_dated_title_witness :
  parse_name example_now
    (dated_title (b "Hydrographic Catchments - Basins") (b "Dow-013")
                 3 11 2008 15 7 44)
  = Ok (b "Hydrographic Catchments - Basins",
        Some (Py.lower (Py.remove ")" (Py.remove "(" (b "Dow-013")))),
        iso_text 2008 11 3 15 7 44).
Proof.
  apply (parse_name_dated_title example_now
           (b "Hydrographic Catchments - Basins") (b "Dow-013")
           3 11 2008 15 7 44 (Datetime.mk_datetime 2008 11 3 15 7 44)).
  - reflexivity.
  - reflexivity.
  - reflexivity.
  - repeat constructor.
  - reflexivity.
  - by vm_compute.
Defined.

(** C6 as stated fails: blanks inside T are not kept as they are (the title
    is rejoined with single blanks), and for a valid date before 1900
    [strftime] fails and the current time is returned. *)
Lemma dated_title_not_parsed_exactly :
  ¬ dated_title_parsed_exactly example_now (b "Lake  Argyle") (b "Dow-013")
      3 11 2008 15 7 44
  ∧ ¬ dated_title_parsed_exactly example_now (b "Old Survey") (b "Lgate-001")
        1 1 1850 0 0 0.
Proof.
  split; intros H.
  - specialize (H ltac:(by eexists)). vm_compute in H. discriminate H.
  - specialize (H ltac:(by eexists)). vm_compute in H. discriminate H.
Qed.

(** * Further properties *)

(** ** [parse_name]: when it returns *)

Lemma index_from_end_some {A} (p : list A) k :
  1 ≤ k ≤ length p → ∃ x, Py.index_from_end p k = Ok x.
Proof.
  intros Hk. unfold Py.index_from_end.
  destruct (Nat.leb_spec 1 k); [|lia].
  destruct (Nat.leb_spec k (length p)); [|lia]. cbn.
  destruct (lookup_lt_is_Some_2 p (length p - k)) as [x ->]; [lia|]. by exists x.
Qed.

Lemma index_from_end_short {A} (p : list A) k :
  length p < k → Py.index_from_end p k = Raise IndexError.
Proof.
  intros Hk. unfold Py.index_from_end.
  destruct (Nat.leb_spec k (length p)); [lia|]. by rewrite andb_false_r.
Qed.

(** X1.  [parse_name] returns exactly on the texts that have enough
    tokens: at least one when the last token starts with an opening
    parenthesis, else at least two, and at least three when the last token
    also ends with a closing parenthesis.  On every other text it raises
    [IndexError], and it raises nothing else. *)
Theorem parse_name_returns_iff_enough_tokens now text :
  match parse_name now text with
  | Ok _ => enough_tokens (Py.split (normalize text)) = true
  | Raise e => e = IndexError ∧ enough_tokens (Py.split (normalize text)) = false
  end.
Proof.
  unfold parse_name, enough_tokens. rewrite index_from_end_last.
  set (p := Py.split (normalize text)).
  destruct (last p) as [y|] eqn:Hlast; [|done]. cbn [rbind].
  assert (1 ≤ length p) as Hlen1.
  { destruct p; [done|cbn; lia]. }
  destruct (Py.startswith "(" y) eqn:Hstart; cbn [rbind orb].
  - destruct (Py.endswith ")" y); [|done].
    destruct (index_from_end_some p 1) as [x ->]; [lia|]. done.
  - destruct (Nat.leb_spec 2 (length p)) as [H2|H2]; cbn [andb].
    + destruct (index_from_end_some p 2) as [x ->]; [lia|]. cbn [rbind].
      destruct (Py.endswith ")" y); cbn [negb orb]; [|done].
      destruct (Nat.leb_spec 3 (length p)) as [H3|H3].
      * destruct (index_from_end_some p 3) as [a ->]; [lia|]. done.
      * rewrite index_from_end_short by lia. done.
    + rewrite index_from_end_short by lia. done.
Qed.

(** ** [parse_name]: a trailing parenthetical *)

(** X2.  When the last token starts with an opening parenthesis no date is
    looked for and the current time is returned; if that token also ends
    with a closing parenthesis it gives the identifier and the tokens before
    it the title, otherwise there is no identifier and the title is the
    whole text. *)
Theorem parse_name_trailing_parenthetical now text pre y :
  Py.split (normalize text) = pre ++ [y] →
  Py.startswith "(" y = true →
  parse_name now text
  = if Py.endswith ")" y
    then Ok (Py.join pre, Some (Py.lower (Py.remove ")" (Py.remove "(" y))), now)
    else Ok (Py.join (pre ++ [y]), None, now).
Proof.
  intros Hp Hstart. unfold parse_name. rewrite Hp.
  rewrite !(index_from_end_app_r pre [y]) by (cbn; lia).
  cbn [Py.index_from_end length lookup list_lookup Nat.leb Nat.sub andb rbind].
  rewrite Hstart. cbn [rbind].
  destruct (Py.endswith ")" y).
  - rewrite (index_from_end_app_r pre [y]) by (cbn; lia).
    cbn [Py.index_from_end length lookup list_lookup Nat.leb Nat.sub andb rbind].
    change (Z.of_nat 1) with (Z.of_nat (length [y])).
    by rewrite (slice_to_app pre [y]).
  - by rewrite slice_to_all.
Qed.

Lemma parse_name_trailing_parenthetical_witness :
  parse_name example_now (b "Graticule (REF-001)")
  = Ok (b "Graticule", Some (b "ref-001"), example_now).
Proof.
  apply (parse_name_trailing_parenthetical example_now (b "Graticule (REF-001)")
           [b "Graticule"] (b "(REF-001)")).
  - reflexivity.
  - reflexivity.
Defined.

(** ** [parse_name]: the shape of the identifier *)

Lemma to_lower_slug c :
  c ≠ "("%char → c ≠ ")"%char → slug_char (Py.to_lower c).
Proof.
  destruct c as [[] [] [] [] [] [] [] []]; intros H1 H2;
    first [by destruct H1 | by destruct H2 | by vm_compute].
Qed.

(** X3.  An identifier returned by [parse_name] holds no parenthesis and no
    uppercase ASCII letter. *)
Theorem parse_name_identifier_is_slug now text t n dt :
  parse_name now text = Ok (t, Some n, dt) → Forall slug_char n.
Proof.
  unfold parse_name. step_result; [|done]. step_result; [|done].
  destruct (Py.endswith ")" _); [|done].
  step_result; [|done]. intros [= _ <- _].
  unfold Py.lower, Py.remove. apply Forall_fmap, Forall_forall.
  intros c [Hc1 [Hc2 _]%list_elem_of_filter]%list_elem_of_filter.
  by apply to_lower_slug.
Qed.

Lemma parse_name_identifier_is_slug_witness :
  Forall slug_char (b "lgate-037").
Proof.
  apply (parse_name_identifier_is_slug example_now
           (b "Misc Transport (Point) (Lgate-037) (18-10-2012 16:54:00)")
           (b "Misc Transport (Point)") (b "lgate-037") (b "2012-10-18T16:54:00")).
  reflexivity.
Defined.

(** ** [parse_name]: the title *)

Lemma split_tokens s : Forall token (Py.split s).
Proof.
  enough (H : ∀ n s, length s ≤ n → Forall token (Py.split s)) by (by eapply H).
  intros n. induction n as [|n IH]; intros [|c [|d s']] Hn;
    try (by constructor); try (cbn in Hn; lia).
  - rewrite split_single. destruct (Py.is_space c) eqn:Hc; [by constructor|].
    repeat constructor; [done|exact Hc].
  - cbn [length] in Hn. rewrite split_cons.
    pose proof (IH (d :: s') ltac:(cbn [length]; lia)) as Hrest.
    destruct (Py.is_space c) eqn:Hc; [done|].
    destruct (Py.is_space d) eqn:Hd.
    + constructor; [|done]. split; [done|by repeat constructor].
    + destruct (split_starts d s' Hd) as (t & ts & Heq). rewrite Heq in Hrest |- *.
      apply Forall_cons in Hrest as [[_ Ht] Hts].
      constructor; [|done]. split; [done|by constructor].
Qed.

Lemma join_cons t u ts :
  Py.join (t :: u :: ts) = t ++ " "%char :: Py.join (u :: ts).
Proof. reflexivity. Qed.

(** Tokens joined by single blanks are split into the same tokens. *)
Lemma split_join ts : Forall token ts → Py.split (Py.join ts) = ts.
Proof.
  induction ts as [|t [|u ts] IH]; intros Hts; [done| |].
  - apply Forall_cons in Hts as [[Hne Hsp] _]. cbn [Py.join].
    destruct t as [|c t]; [done|]. by apply split_token.
  - pose proof Hts as [[Hne Hsp] Hrest]%Forall_cons.
    rewrite join_cons, split_app_space by done. rewrite (IH Hrest).
    destruct t as [|c t]; [done|]. by rewrite split_token.
Qed.

(** X4.  The title returned by [parse_name] is made of the first tokens of
    the normalised text, all of them or all but the last one or three,
    joined by single blanks: splitting the title gives these tokens back,
    and joining them gives the title. *)
Theorem parse_name_title_tokens now text t n dt :
  parse_name now text = Ok (t, n, dt) →
  ∃ k, (k = 0 ∨ k = 1 ∨ k = 3)
       ∧ k ≤ length (Py.split (normalize text))
       ∧ Py.split t
         = take (length (Py.split (normalize text)) - k) (Py.split (normalize text))
       ∧ Py.join (Py.split t) = t.
Proof.
  unfold parse_name. set (p := Py.split (normalize text)).
  assert (Hp : Forall token p) by apply split_tokens.
  assert (Hslice : ∀ k, k ≤ length p →
            Py.slice_to p (Z.of_nat (length p) - Z.of_nat k) = take (length p - k) p).
  { intros k Hk. unfold Py.slice_to.
    destruct (Z.ltb_spec (Z.of_nat (length p) - Z.of_nat k) 0); [lia|].
    f_equal. lia. }
  assert (Htake : ∀ j, Py.split (Py.join (take j p)) = take j p).
  { intros j. apply split_join. by apply Forall_take. }
  step_result; [|done]. rename a into y.
  step_result; [|done].
  destruct (Py.endswith ")" y).
  - step_result; [|done]. intros [= <- _ _].
    destruct (Py.startswith "(" y).
    + exists 1. assert (1 ≤ length p).
      { destruct (Nat.le_gt_cases 1 (length p)); [done|].
        by rewrite index_from_end_short in E1 by done. }
      rewrite (Hslice 1) by done. rewrite !Htake. auto.
    + exists 3. assert (3 ≤ length p).
      { destruct (Nat.le_gt_cases 3 (length p)); [done|].
        by rewrite index_from_end_short in E1 by done. }
      rewrite (Hslice 3) by done. rewrite !Htake. auto.
  - intros [= <- _ _]. exists 0.
    change 0%Z with (Z.of_nat 0). rewrite (Hslice 0) by lia. rewrite !Htake.
    split_and!; auto with lia.
Qed.

Lemma parse_name_title_tokens_witness :
  ∃ k, (k = 0 ∨ k = 1 ∨ k = 3)
       ∧ k ≤ length (Py.split (normalize (b "Lake  Argyle (Dow-013)")))
       ∧ Py.split (b "Lake Argyle")
         = take (length (Py.split (normalize (b "Lake  Argyle (Dow-013)"))) - k)
                (Py.split (normalize (b "Lake  Argyle (Dow-013)")))
       ∧ Py.join (Py.split (b "Lake Argyle")) = b "Lake Argyle".
Proof.
  apply (parse_name_title_tokens example_now (b "Lake  Argyle (Dow-013)")
           (b "Lake Argyle") (Some (b "dow-013")) example_now).
  reflexivity.
Defined.

(** ** [parse_name]: the normalisation settles *)

Lemma normalize_head c s x r :
  normalize (c :: s) = x :: r → x = c ∨ x = " "%char.
Proof.
  destruct s as [|d s]; [by intros [= <- _]; left|].
  rewrite normalize_cons. destruct (_ && _); intros [= <- _]; auto.
Qed.

Lemma normalize_has_no_lower_paren s : has_lower_paren (normalize s) = false.
Proof.
  enough (H : ∀ n s, length s ≤ n → has_lower_paren (normalize s) = false)
    by (by eapply H).
  intros n. induction n as [|n IH]; intros [|c [|d s']] Hn;
    try done; try (cbn in Hn; lia).
  cbn [length] in Hn. rewrite normalize_cons.
  destruct (Py.is_lower c && Ascii.eqb d "(") eqn:Hm.
  - rewrite has_lower_paren_skip by done. rewrite has_lower_paren_skip by done.
    apply IH. lia.
  - pose proof (IH (d :: s') ltac:(cbn [length]; lia)) as Hrest.
    destruct (normalize (d :: s')) as [|x r] eqn:Hnd; [done|].
    rewrite has_lower_paren_cons, Hrest, orb_false_r.
    destruct (normalize_head _ _ _ _ Hnd) as [-> | ->]; [done|].
    by rewrite andb_false_r.
Qed.

(** X5.  After the normalisation no lowercase letter stands right before an
    opening parenthesis, so normalising a second time changes nothing. *)
Theorem normalize_idempotent s :
  has_lower_paren (normalize s) = false
  ∧ normalize (normalize s) = normalize s.
Proof.
  split; [apply normalize_has_no_lower_paren|].
  apply normalize_clean, normalize_has_no_lower_paren.
Qed.

(** ** Layer names and dataset names *)

Example make_slip_wfs_name_doctest :
  make_slip_wfs_name "LGATE-001" = "slip:LGATE-001".
Proof. reflexivity. Qed.

Example make_dataset_name_doctest :
  make_dataset_name "slip:LGATE-001" = Ok "LGATE-001".
Proof. reflexivity. Qed.

Lemma b_app s1 s2 : b (s1 +:+ s2) = b s1 ++ b s2.
Proof. unfold b. induction s1 as [|c s1 IH]; [done|]. simpl. by f_equal. Qed.

Lemma b_str x : b (str x) = x.
Proof. apply list_ascii_of_string_of_list_ascii. Qed.

Lemma str_b s : str (b s) = s.
Proof. apply string_of_list_ascii_of_string. Qed.

Lemma split_on_absent sep s : sep ∉ s → Py.split_on sep s = [s].
Proof.
  induction s as [|c s IH]; [done|]. intros Hin. cbn.
  destruct (Ascii.eqb_spec c sep) as [->|Hne].
  - exfalso. apply Hin. by left.
  - rewrite IH; [done|]. intros ?. apply Hin. by right.
Qed.

Lemma split_on_present sep s :
  sep ∈ s → ∃ x y ys, Py.split_on sep s = x :: y :: ys.
Proof.
  induction s as [|c s IH]; [by intros ?%elem_of_nil|].
  intros Hin. cbn. destruct (Ascii.eqb_spec c sep) as [->|Hne].
  - destruct s; cbn; [by eexists _, _, _|].
    destruct (Ascii.eqb _ _); [by eexists _, _, _|].
    destruct (Py.split_on sep s); by eexists _, _, _.
  - apply elem_of_cons in Hin as [->|Hin]; [done|].
    destruct (IH Hin) as (x & y & ys & ->). by eexists _, _, _.
Qed.

Lemma to_upper_colon c : c ≠ ":"%char → Py.to_upper c ≠ ":"%char.
Proof.
  destruct c as [[] [] [] [] [] [] [] []]; intros H;
    first [by destruct H | by vm_compute].
Qed.

(** X6.  For a dataset name without a colon, the dataset name extracted
    from its SLIP WFS layer name is the dataset name in upper case. *)
Theorem make_dataset_name_of_slip_wfs_name (dataset_name : string) :
  ":"%char ∉ b dataset_name →
  make_dataset_name (make_slip_wfs_name dataset_name)
  = Ok (str (Py.upper (b dataset_name))).
Proof.
  intros Hcolon. unfold make_dataset_name, make_slip_wfs_name.
  rewrite b_app, b_str.
  assert (Hup : ":"%char ∉ Py.upper (b dataset_name)).
  { unfold Py.upper. intros (c & Heq & Hc)%list_elem_of_fmap.
    apply (to_upper_colon c); [|done]. by intros ->. }
  change (b "slip:") with ["s"; "l"; "i"; "p"; ":"]%char.
  cbn [app Py.split_on Ascii.eqb Bool.eqb].
  by rewrite (split_on_absent _ _ Hup).
Qed.

Lemma make_dataset_name_of_slip_wfs_name_witness :
  make_dataset_name (make_slip_wfs_name "lgate-001") = Ok "LGATE-001".
Proof.
  apply (make_dataset_name_of_slip_wfs_name "lgate-001").
  apply (bool_decide_unpack _). by vm_compute.
Defined.

(** X7.  [make_dataset_name] raises [IndexError] exactly on the layer names
    that hold no colon; on every other name it returns. *)
Theorem make_dataset_name_needs_colon (slip_wfs_name : string) :
  match make_dataset_name slip_wfs_name with
  | Ok _ => ":"%char ∈ b slip_wfs_name
  | Raise e => e = IndexError ∧ ":"%char ∉ b slip_wfs_name
  end.
Proof.
  unfold make_dataset_name.
  destruct (decide (":"%char ∈ b slip_wfs_name)) as [Hin|Hout].
  - by destruct (split_on_present _ _ Hin) as (x & y & ys & ->).
  - by rewrite (split_on_absent _ _ Hout).
Qed.

(** ** Merging: when it fails *)

Lemma getitem_url_raise (r : resource) e :
  getitem r "url" = Raise e → e = KeyError "url" ∧ ¬ has_url r.
Proof.
  unfold getitem, has_url. destruct (r !! "url") eqn:Hr; [done|].
  intros [= <-]. split; [done|]. by intros [? ?].
Qed.

Lemma urls_raise (l : list resource) e :
  urls l = Raise e → e = KeyError "url" ∧ ¬ Forall has_url l.
Proof.
  induction l as [|r l IH]; [done|]. cbn.
  destruct (getitem r "url") as [u|e'] eqn:Hr; cbn.
  - destruct (urls l) as [us|e'']; cbn; [done|]. intros [= <-].
    destruct (IH eq_refl) as [-> Hl]. split; [done|].
    by intros [_ ?]%Forall_cons.
  - intros [= <-]. destruct (getitem_url_raise _ _ Hr) as [-> Hn].
    split; [done|]. by intros [? _]%Forall_cons.
Qed.

Lemma add_resources_to_list_raise (new old : list resource) e :
  add_resources_to_list old new = Raise e → e = KeyError "url".
Proof.
  revert old. induction new as [|r new IH]; intros old; [done|]. cbn.
  destruct (add_resource_to_list old r) as [res|e'] eqn:Hres; cbn; [by apply IH|].
  intros [= <-]. unfold add_resource_to_list in Hres.
  destruct (getitem r "url") as [u|e''] eqn:Hr; cbn in Hres.
  - destruct (urls old) as [us|e''] eqn:Hold; cbn in Hres.
    + by case_bool_decide.
    + injection Hres as <-. by destruct (urls_raise _ _ Hold).
  - injection Hres as <-. by destruct (getitem_url_raise _ _ Hr).
Qed.

Lemma add_resources_to_list_returns (new old rs : list resource) :
  add_resources_to_list old new = Ok rs →
  new = [] ∨ (Forall has_url old ∧ Forall has_url new).
Proof.
  revert old. induction new as [|r new IH]; intros old; [by left|]. cbn.
  destruct (add_resource_to_list old r) as [res|] eqn:Hres; [|done]. cbn.
  intros Hrs. right.
  unfold add_resource_to_list, getitem in Hres.
  destruct (r !! "url") as [u|] eqn:Hu; [|done]. cbn in Hres.
  destruct (urls old) as [us|] eqn:Hold; [|done]. cbn in Hres.
  apply urls_inv in Hold as [-> Hold]. split; [done|].
  constructor; [by eexists|].
  destruct (IH _ Hrs) as [->|[_ ?]]; [constructor|done].
Qed.

(** X8.  Merging returns unless there is a resource to add and some
    resource, stored or new, has no [url]; it then raises [KeyError] for
    the key [url], and it raises nothing else. *)
Theorem add_resources_to_list_fails_iff_url_missing (old new : list resource) :
  match add_resources_to_list old new with
  | Ok _ => new = [] ∨ (Forall has_url old ∧ Forall has_url new)
  | Raise e => e = KeyError "url" ∧ new ≠ []
               ∧ ¬ (Forall has_url old ∧ Forall has_url new)
  end.
Proof.
  destruct (add_resources_to_list old new) as [rs|e] eqn:Hrun.
  - by eapply add_resources_to_list_returns.
  - split_and!.
    + by eapply add_resources_to_list_raise.
    + intros ->. done.
    + intros [Hold Hnew].
      by rewrite (add_resources_to_list_ok new old Hold Hnew) in Hrun.
Qed.

(** ** Merging: what it keeps and what it adds *)

Lemma add_resource_to_list_inv old r rs :
  add_resource_to_list old r = Ok rs →
  ∃ u, r !! "url" = Some u ∧ Forall has_url old
       ∧ rs = (if bool_decide (u ∈ url_of <$> old) then old else old ++ [r]).
Proof.
  unfold add_resource_to_list, getitem.
  destruct (r !! "url") as [u|]; [|done]. cbn.
  destruct (urls old) as [us|] eqn:Hus; [|done]. cbn.
  apply urls_inv in Hus as [-> Hold]. intros Hrs. exists u.
  split_and!; [done..|]. by case_bool_decide; injection Hrs as <-.
Qed.

Lemma add_resources_to_list_app (new old rs : list resource) :
  add_resources_to_list old new = Ok rs →
  ∃ added, rs = old ++ added ∧ added `sublist_of` new.
Proof.
  revert old. induction new as [|r new IH]; intros old; cbn.
  - intros [= <-]. exists []. by rewrite app_nil_r.
  - destruct (add_resource_to_list old r) as [res|] eqn:Hres; [|done]. cbn.
    apply add_resource_to_list_inv in Hres as (u & _ & _ & ->).
    intros (added & -> & Hsub)%IH. case_bool_decide.
    + exists added. split; [done|]. by apply sublist_cons.
    + exists (r :: added). split; [by rewrite <- (assoc_L (++))|].
      by apply sublist_skip.
Qed.

(** X9.  Merging never drops, changes or reorders a stored resource: the
    result is the stored list followed by some of the new resources in
    their given order, so it is at least as long as the stored list and at
    most as long as both lists together. *)
Theorem add_resources_to_list_extends_old (old new rs : list resource) :
  add_resources_to_list old new = Ok rs →
  (∃ added, rs = old ++ added ∧ added `sublist_of` new)
  ∧ length old ≤ length rs ≤ length old + length new.
Proof.
  intros (added & -> & Hsub)%add_resources_to_list_app.
  split; [by exists added|].
  apply sublist_length in Hsub. rewrite length_app. lia.
Qed.

Lemma add_resources_to_list_extends_old_witness :
  (∃ added, [url_only "a"; url_only "b"; url_only "c"]
            = [url_only "a"; url_only "b"] ++ added
            ∧ added `sublist_of` [url_only "b"; url_only "c"])
  ∧ length [url_only "a"; url_only "b"]
    ≤ length [url_only "a"; url_only "b"; url_only "c"]
    ≤ length [url_only "a"; url_only "b"] + length [url_only "b"; url_only "c"].
Proof.
  apply (add_resources_to_list_extends_old [url_only "a"; url_only "b"]
           [url_only "b"; url_only "c"]).
  reflexivity.
Defined.

Lemma add_resources_to_list_covers (new old rs : list resource) r :
  add_resources_to_list old new = Ok rs →
  r ∈ new →
  ∃ u, r !! "url" = Some u ∧ u ∈ url_of <$> rs.
Proof.
  revert old. induction new as [|x new IH]; intros old; cbn.
  - by intros _ ?%elem_of_nil.
  - destruct (add_resource_to_list old x) as [res|] eqn:Hres; [|done]. cbn.
    intros Hrs [->|Hin]%elem_of_cons; [|by eapply IH].
    apply add_resource_to_list_inv in Hres as (u & Hu & _ & ->).
    exists u. split; [done|].
    apply add_resources_to_list_app in Hrs as (added & -> & _).
    rewrite fmap_app. apply elem_of_app. left.
    case_bool_decide; [done|].
    rewrite fmap_app. apply elem_of_app. right.
    apply list_elem_of_singleton. unfold url_of. by rewrite Hu.
Qed.

(** X11.  After a merge the url of every new resource is the url of some
    resource of the result, whether the resource itself was added or an
    earlier one with the same url was kept. *)
Theorem add_resources_to_list_covers_new (old new rs : list resource) r :
  add_resources_to_list old new = Ok rs →
  r ∈ new →
  ∃ u r', r !! "url" = Some u ∧ r' ∈ rs ∧ r' !! "url" = Some u.
Proof.
  intros Hrs Hr.
  destruct (add_resources_to_list_covers _ _ _ _ Hrs Hr) as (u & Hu & Hin).
  apply list_elem_of_fmap in Hin as (r' & Hur' & Hr').
  exists u, r'. split_and!; [done..|].
  destruct (add_resources_to_list_returns _ _ _ Hrs) as [->|[Hold Hnew]];
    [by apply elem_of_nil in Hr|].
  destruct (add_resources_to_list_app _ _ _ Hrs) as (added & -> & Hsub).
  assert (Hhas : has_url r').
  { apply elem_of_app in Hr' as [Hin|Hin].
    - by eapply Forall_forall in Hold.
    - eapply Forall_forall in Hnew; [done|]. by eapply (sublist_subseteq _ _ Hsub). }
  destruct Hhas as [u' Hu']. unfold url_of in Hur'. rewrite Hu' in Hur'.
  cbn in Hur'. by subst.
Qed.

Lemma add_resources_to_list_covers_new_witness :
  ∃ u r', url_only "c" !! "url" = Some u
          ∧ r' ∈ [url_only "a"; url_only "b"; url_only "c"]
          ∧ r' !! "url" = Some u.
Proof.
  apply (add_resources_to_list_covers_new [url_only "a"; url_only "b"]
           [url_only "b"; url_only "c"]).
  - reflexivity.
  - apply elem_of_cons. right. apply elem_of_cons. by left.
Defined.

Lemma add_resources_to_list_all_present (new l : list resource) :
  Forall has_url l →
  (∀ r, r ∈ new → ∃ u, r !! "url" = Some u ∧ u ∈ url_of <$> l) →
  add_resources_to_list l new = Ok l.
Proof.
  intros Hl. induction new as [|r new IH]; intros Hnew; [done|]. cbn.
  destruct (Hnew r) as (u & Hu & Hin); [by left|].
  rewrite add_resource_to_list_ok; [|done|by eexists].
  assert (Hin' : url_of r ∈ url_of <$> l) by (unfold url_of at 1; by rewrite Hu).
  rewrite bool_decide_eq_true_2 by done. cbn [rbind].
  apply IH. intros r' Hr'. apply Hnew. by right.
Qed.

(** X10.  Merging is idempotent: merging the same new resources into the
    result of a merge returns that result unchanged. *)
Theorem add_resources_to_list_idempotent (old new rs : list resource) :
  add_resources_to_list old new = Ok rs →
  add_resources_to_list rs new = Ok rs.
Proof.
  intros Hrs.
  destruct (add_resources_to_list_returns _ _ _ Hrs) as [->|[Hold Hnew]]; [done|].
  apply add_resources_to_list_all_present.
  - destruct (add_resources_to_list_app _ _ _ Hrs) as (added & -> & Hsub).
    apply Forall_app. split; [done|].
    eapply Forall_forall. intros x Hx. eapply Forall_forall in Hnew; [done|].
    by eapply (sublist_subseteq _ _ Hsub).
  - intros r Hr. by eapply add_resources_to_list_covers.
Qed.

Lemma add_resources_to_list_idempotent_witness :
  add_resources_to_list [url_only "a"; url_only "b"; url_only "c"]
    [url_only "b"; url_only "c"]
  = Ok [url_only "a"; url_only "b"; url_only "c"].
Proof.
  apply (add_resources_to_list_idempotent [url_only "a"; url_only "b"]).
  reflexivity.
Defined.

(** ** [upsert_dataset]: which calls it makes *)

(** X12.  [upsert_dataset] does not contact the catalog when there is no
    draft or the draft has no name (it returns [None]) or no resources entry
    (it raises [KeyError]); in every other case its first call is the probe
    for the draft's name. *)
Theorem upsert_dataset_first_call {St} (handle : St → call → St * result package)
    (draft : option package) (ow drop : bool) σ :
  match draft with
  | None => upsert_dataset handle draft ow drop σ = (σ, [], Ok None)
  | Some d =>
      match fields d !! "name", resources d with
      | None, _ => upsert_dataset handle draft ow drop σ = (σ, [], Ok None)
      | Some _, None =>
          upsert_dataset handle draft ow drop σ
          = (σ, [], Raise (KeyError "resources"))
      | Some n, Some _ =>
          ∃ rest,
            (upsert_dataset handle draft ow drop σ).1.2
            = (PackageShow n, (handle σ (PackageShow n)).2) :: rest
      end
  end.
Proof.
  destruct draft as [d|]; [|done]. unfold upsert_dataset, get_resources.
  destruct (fields d !! "name") as [n|]; [|by destruct (resources d)].
  destruct (resources d) as [new|]; [|done].
  destruct (handle σ (PackageShow n)) as [σ1 [existing|e]].
  - destruct (reconcile _ _ _ _ _); [|by eexists].
    destruct (handle σ1 _). by eexists.
  - destruct (handle σ1 _). by eexists.
Qed.

(** X16.  A run makes no call, or the probe alone, or the probe followed by
    one write; the write is answered by the catalog as the probe left it. *)
Theorem upsert_dataset_probe_before_write {St}
    (handle : St → call → St * result package)
    (draft : option package) (ow drop : bool) σ σ' trace res :
  upsert_dataset handle draft ow drop σ = (σ', trace, res) →
  (trace = [] ∧ σ' = σ)
  ∨ (∃ n r, trace = [(PackageShow n, r)] ∧ handle σ (PackageShow n) = (σ', r))
  ∨ (∃ n r σ1 w r',
       trace = [(PackageShow n, r); (w, r')] ∧ is_write w
       ∧ handle σ (PackageShow n) = (σ1, r) ∧ handle σ1 w = (σ', r')).
Proof.
  unfold upsert_dataset. destruct draft as [d|]; [|by intros [= <- <- <-]; left].
  destruct (fields d !! "name") as [n|]; [|by intros [= <- <- <-]; left].
  destruct (get_resources d) as [new|e0]; [|by intros [= <- <- <-]; left].
  destruct (handle σ (PackageShow n)) as [σ1 [existing|e1]] eqn:Hshow.
  - destruct (reconcile d existing new ow drop) as [pkg|e2].
    + destruct (handle σ1 (PackageUpdate pkg)) as [σ2 updated] eqn:Hupd.
      intros [= <- <- <-]. right. right. by eexists _, _, _, _, _.
    + intros [= <- <- <-]. right. left. by eexists _, _.
  - destruct (handle σ1 (PackageCreate d)) as [σ2 created] eqn:Hcre.
    intros [= <- <- <-]. right. right. by eexists _, _, _, _, _.
Qed.

Lemma upsert_dataset_probe_before_write_witness :
  let σ := catalog_with (stored_roads [url_only "a"]) in
  let run := upsert_dataset MemoryCatalog.handle
               (Some (package_named "roads" [url_only "b"])) false false σ in
  (run.1.2 = [] ∧ run.1.1 = σ)
  ∨ (∃ n r, run.1.2 = [(PackageShow n, r)]
            ∧ MemoryCatalog.handle σ (PackageShow n) = (run.1.1, r))
  ∨ (∃ n r σ1 w r',
       run.1.2 = [(PackageShow n, r); (w, r')] ∧ is_write w
       ∧ MemoryCatalog.handle σ (PackageShow n) = (σ1, r)
       ∧ MemoryCatalog.handle σ1 w = (run.1.1, r')).
Proof.
  intros σ run.
  apply (upsert_dataset_probe_before_write MemoryCatalog.handle
           (Some (package_named "roads" [url_only "b"])) false false σ
           run.1.1 run.1.2 run.2).
  reflexivity.
Defined.

(** ** [upsert_dataset]: the record is missing, or has no resources *)

(** X14.  When the probe fails the draft is created as it is, whatever the
    two flags are: the run is the probe and the create call, and it returns
    what the create call returns or raises what it raises. *)
Theorem upsert_dataset_creates_when_not_found {St}
    (handle : St → call → St * result package)
    (d : package) (ow drop : bool) σ σ1 n new e :
  fields d !! "name" = Some n →
  resources d = Some new →
  handle σ (PackageShow n) = (σ1, Raise e) →
  upsert_dataset handle (Some d) ow drop σ
  = ((handle σ1 (PackageCreate d)).1,
     [(PackageShow n, Raise e);
      (PackageCreate d, (handle σ1 (PackageCreate d)).2)],
     p <- (handle σ1 (PackageCreate d)).2 ;; Ok (Some p)).
Proof.
  intros Hn Hnew Hshow. unfold upsert_dataset, get_resources.
  rewrite Hn, Hnew, Hshow. by destruct (handle σ1 (PackageCreate d)).
Qed.

Lemma upsert_dataset_creates_when_not_found_witness :
  upsert_dataset MemoryCatalog.handle
    (Some (package_named "rivers" [url_only "b"])) false false
    (catalog_with (stored_roads [url_only "a"]))
  = (<["rivers" := package_named "rivers" [url_only "b"]]>
       (catalog_with (stored_roads [url_only "a"])),
     [(PackageShow (VStr "rivers"), Raise (CkanError NotFound));
      (PackageCreate (package_named "rivers" [url_only "b"]),
       Ok (package_named "rivers" [url_only "b"]))],
     Ok (Some (package_named "rivers" [url_only "b"]))).
Proof.
  apply (upsert_dataset_creates_when_not_found MemoryCatalog.handle
           (package_named "rivers" [url_only "b"]) false false
           (catalog_with (stored_roads [url_only "a"]))
           (catalog_with (stored_roads [url_only "a"]))
           (VStr "rivers") [url_only "b"] (CkanError NotFound)).
  - reflexivity.
  - reflexivity.
  - reflexivity.
Defined.

(** X13.  A stored record without a resources entry makes the run raise
    [KeyError] right after the probe, in drop mode as in merge mode, and
    nothing is written. *)
Theorem upsert_dataset_stored_record_without_resources {St}
    (handle : St → call → St * result package)
    (d existing : package) (ow drop : bool) σ σ1 n new :
  fields d !! "name" = Some n →
  resources d = Some new →
  handle σ (PackageShow n) = (σ1, Ok existing) →
  resources existing = None →
  upsert_dataset handle (Some d) ow drop σ
  = (σ1, [(PackageShow n, Ok existing)], Raise (KeyError "resources")).
Proof.
  intros Hn Hnew Hshow Hnone.
  rewrite (upsert_dataset_found handle _ _ _ _ _ _ ow drop Hn Hnew Hshow).
  unfold reconcile, get_resources. by rewrite Hnone.
Qed.

Lemma upsert_dataset_stored_record_without_resources_witness :
  upsert_dataset MemoryCatalog.handle
    (Some (package_named "roads" [url_only "b"])) true true
    ({["roads" := mk_package {["name" := VStr "roads"]} None]} : MemoryCatalog.state)
  = ({["roads" := mk_package {["name" := VStr "roads"]} None]},
     [(PackageShow (VStr "roads"),
       Ok (mk_package {["name" := VStr "roads"]} None))],
     Raise (KeyError "resources")).
Proof.
  apply (upsert_dataset_stored_record_without_resources MemoryCatalog.handle
           (package_named "roads" [url_only "b"])
           (mk_package {["name" := VStr "roads"]} None) true true
           _ _ (VStr "roads") [url_only "b"]).
  - reflexivity.
  - reflexivity.
  - reflexivity.
  - reflexivity.
Defined.

(** ** [upsert_dataset]: the default flags *)

(** X15.  With both flags at their default [True] a stored record that is
    found is overwritten by the draft exactly as it came in: nothing of the
    stored record is kept in the update. *)
Theorem upsert_dataset_defaults_submit_the_draft {St}
    (handle : St → call → St * result package)
    (d existing : package) σ σ1 n new old :
  fields d !! "name" = Some n →
  resources d = Some new →
  handle σ (PackageShow n) = (σ1, Ok existing) →
  resources existing = Some old →
  writes (upsert_dataset handle (Some d) true true σ).1.2 = [PackageUpdate d].
Proof.
  intros Hn Hnew Hshow Hold.
  rewrite (upsert_dataset_found handle _ _ _ _ _ _ true true Hn Hnew Hshow).
  rewrite (reconcile_ok d existing old new new true true Hold eq_refl).
  cbn [fst snd]. rewrite writes_show_update.
  destruct d as [f rs]. cbn in Hnew. by subst.
Qed.

Lemma upsert_dataset_defaults_submit_the_draft_witness :
  writes (upsert_dataset MemoryCatalog.handle
            (Some (package_named "roads" [url_only "b"])) true true
            (catalog_with (stored_roads [url_only "a"]))).1.2
  = [PackageUpdate (package_named "roads" [url_only "b"])].
Proof.
  apply (upsert_dataset_defaults_submit_the_draft MemoryCatalog.handle
           (package_named "roads" [url_only "b"]) (stored_roads [url_only "a"])
           (catalog_with (stored_roads [url_only "a"]))
           (catalog_with (stored_roads [url_only "a"]))
           (VStr "roads") [url_only "b"] [url_only "a"]).
  - reflexivity.
  - reflexivity.
  - reflexivity.
  - reflexivity.
Defined.

(** ** Reconciling twice *)

(** X17.  Reconciling is idempotent: when the package that a reconciliation
    submits is found as the stored record of the next run with the same
    draft and flags, that run submits the same package again. *)
Theorem reconcile_idempotent (d existing pkg : package)
    (new : list resource) (ow drop : bool) :
  reconcile d existing new ow drop = Ok pkg →
  reconcile d pkg new ow drop = Ok pkg.
Proof.
  unfold reconcile, get_resources.
  destruct (resources existing) as [old|]; [|done]. cbn [rbind].
  destruct drop; cbn [rbind].
  - intros [= <-]. cbn [resources set_resources rbind]. by destruct ow.
  - destruct (add_resources_to_list old new) as [rs|] eqn:Hrs; [|done].
    cbn [rbind]. intros [= <-].
    assert (Hagain : add_resources_to_list rs new = Ok rs).
    { destruct (add_resources_to_list_returns _ _ _ Hrs) as [->|[Hold Hnew]];
        [done|].
      apply add_resources_to_list_all_present.
      - destruct (add_resources_to_list_app _ _ _ Hrs) as (added & -> & Hsub).
        apply Forall_app. split; [done|].
        eapply Forall_forall. intros x Hx. eapply Forall_forall in Hnew; [done|].
        by eapply (sublist_subseteq _ _ Hsub).
      - intros r Hr. by eapply add_resources_to_list_covers. }
    destruct ow; cbn [resources set_resources rbind]; by rewrite Hagain.
Qed.

Lemma reconcile_idempotent_witness :
  reconcile (package_named "roads" [url_only "b"; url_only "c"])
    (stored_roads [url_only "a"; url_only "b"; url_only "c"])
    [url_only "b"; url_only "c"] false false
  = Ok (stored_roads [url_only "a"; url_only "b"; url_only "c"]).
Proof.
  apply (reconcile_idempotent (package_named "roads" [url_only "b"; url_only "c"])
           (stored_roads [url_only "a"; url_only "b"])).
  reflexivity.
Defined.

(** ** [upsert_datasets]: a batch of drafts *)

Lemma upsert_datasets_app {St} (handle : St → call → St * result package)
    (l1 l2 : list (option package)) (ow drop : bool) σ :
  upsert_datasets handle (l1 ++ l2) ow drop σ
  = match upsert_datasets handle l1 ow drop σ with
    | (σ1, t1, Raise e) => (σ1, t1, Raise e)
    | (σ1, t1, Ok ps1) =>
        match upsert_datasets handle l2 ow drop σ1 with
        | (σ2, t2, r2) => (σ2, t1 ++ t2, ps2 <- r2 ;; Ok (ps1 ++ ps2))
        end
    end.
Proof.
  revert σ. induction l1 as [|[d|] l1 IH]; intros σ; cbn [app upsert_datasets].
  - destruct (upsert_datasets handle l2 ow drop σ) as [[σ2 t2] [ps2|e]]; done.
  - destruct (upsert_dataset handle (Some d) ow drop σ) as [[σ1 t1] [p|e]]; [|done].
    rewrite IH.
    destruct (upsert_datasets handle l1 ow drop σ1) as [[σ2 t2] [ps1|e]]; [|done].
    destruct (upsert_datasets handle l2 ow drop σ2) as [[σ3 t3] [ps2|e]];
      cbn [rbind]; by rewrite (assoc_L (++)).
  - apply IH.
Qed.

(** X18.  A batch stops at the first draft whose upsert raises: the
    exception is raised to the caller, the results of the drafts before it
    are lost, and the drafts after it are not looked at. *)
Theorem upsert_datasets_stops_at_first_failure {St}
    (handle : St → call → St * result package)
    (before rest : list (option package)) (d : package) (ow drop : bool)
    σ σ1 σ2 t1 t2 ps e :
  upsert_datasets handle before ow drop σ = (σ1, t1, Ok ps) →
  upsert_dataset handle (Some d) ow drop σ1 = (σ2, t2, Raise e) →
  upsert_datasets handle (before ++ Some d :: rest) ow drop σ
  = (σ2, t1 ++ t2, Raise e).
Proof.
  intros Hbefore Hd. rewrite upsert_datasets_app, Hbefore.
  cbn [upsert_datasets]. by rewrite Hd.
Qed.

Lemma upsert_datasets_stops_at_first_failure_witness :
  upsert_datasets RejectingCatalog.handle
    ([None] ++ Some (package_named "roads" [url_only "a"])
            :: [Some (package_named "rivers" [url_only "b"])])
    true true tt
  = (tt,
     [] ++ [(PackageShow (VStr "roads"), Raise (CkanError NotFound));
            (PackageCreate (package_named "roads" [url_only "a"]),
             Raise (CkanError ValidationError))],
     Raise (CkanError ValidationError)).
Proof.
  apply (upsert_datasets_stops_at_first_failure RejectingCatalog.handle
           [None] [Some (package_named "rivers" [url_only "b"])]
           (package_named "roads" [url_only "a"]) true true tt tt tt [] _ []).
  - reflexivity.
  - reflexivity.
Defined.

(** X19.  A batch that returns gives one result for each draft that is not
    [None], and its exchanges with the catalog number at most two for each
    of them. *)
Theorem upsert_datasets_one_result_per_draft {St}
    (handle : St → call → St * result package)
    (data_dict : list (option package)) (ow drop : bool) σ σ' trace ps :
  upsert_datasets handle data_dict ow drop σ = (σ', trace, Ok ps) →
  length ps = length (omap id data_dict)
  ∧ length trace ≤ 2 * length (omap id data_dict).
Proof.
  revert σ trace ps. induction data_dict as [|[d|] l IH]; intros σ trace ps;
    cbn [upsert_datasets omap list_omap id].
  - by intros [= <- <- <-].
  - destruct (upsert_dataset handle (Some d) ow drop σ) as [[σ1 t1] [p|e]] eqn:Hd;
      [|done].
    destruct (upsert_datasets handle l ow drop σ1) as [[σ2 t2] [ps2|e]] eqn:Hl;
      [|done].
    cbn [rbind]. intros [= <- <- <-].
    destruct (IH _ _ _ Hl) as [Hlen Htr]. cbn [length].
    rewrite length_app. split; [lia|].
    assert (length t1 ≤ 2); [|lia].
    unfold upsert_dataset in Hd.
    destruct (fields d !! "name"); [|simplify_eq; cbn; lia].
    destruct (get_resources d); [|done].
    destruct (handle σ _) as [σa [ex|ea]].
    + destruct (reconcile _ _ _ _ _); [|simplify_eq; cbn; lia].
      destruct (handle σa _). simplify_eq. cbn. lia.
    + destruct (handle σa _). simplify_eq. cbn. lia.
  - apply IH.
Qed.

Lemma upsert_datasets_one_result_per_draft_witness :
  length [Some (package_named "roads" [url_only "a"]);
          Some (package_named "rivers" [url_only "b"])]
  = length (omap id [Some (package_named "roads" [url_only "a"]); None;
                     Some (package_named "rivers" [url_only "b"])])
  ∧ length [(PackageShow (VStr "roads"), Raise (CkanError CKANAPIError));
            (PackageCreate (package_named "roads" [url_only "a"]),
             Ok (package_named "roads" [url_only "a"]));
            (PackageShow (VStr "rivers"), Raise (CkanError CKANAPIError));
            (PackageCreate (package_named "rivers" [url_only "b"]),
             Ok (package_named "rivers" [url_only "b"]))]
    ≤ 2 * length (omap id [Some (package_named "roads" [url_only "a"]); None;
                           Some (package_named "rivers" [url_only "b"])]).
Proof.
  apply (upsert_datasets_one_result_per_draft TimeoutCatalog.handle
           [Some (package_named "roads" [url_only "a"]); None;
            Some (package_named "rivers" [url_only "b"])] true true tt tt).
  reflexivity.
Defined.

(** ** [wxs_to_dict]: skipped layers *)

Lemma split_on_cons sep s : ∃ x xs, Py.split_on sep s = x :: xs.
Proof.
  destruct s as [|c s]; cbn; [by eexists _, _|].
  destruct (Ascii.eqb c sep); [by eexists _, _|].
  destruct (Py.split_on sep s); by eexists _, _.
Qed.

Lemma org_key_index ds_name :
  Py.index (Py.split_on "-" ds_name) 0 = Ok (hd [] (Py.split_on "-" ds_name)).
Proof. by destruct (split_on_cons "-" ds_name) as (x & xs & ->). Qed.

Section MapperFacts.
Context (slugify : string → string) {coord : Type}.
Context (json_dumps : list (list (list (list coord))) → string).

(** X20.  [wxs_to_dict] skips a layer, returning [None], exactly when the
    layer has a name or an id with a colon and [parse_name] finds no
    identifier in its title. *)
Theorem wxs_to_dict_skips_iff_no_identifier now (l : layer (coord := coord))
    wxs_url org_dict group_dict pdf_dict fallback_org_id res_format :
  wxs_to_dict slugify json_dumps now l wxs_url org_dict group_dict pdf_dict
    fallback_org_id res_format = Ok None
  ↔ (∃ k, layer_key l = Ok k)
    ∧ (∃ t dt, parse_name now (b (layer_title l)) = Ok (t, None, dt)).
Proof.
  unfold wxs_to_dict. fold (layer_key l).
  destruct (layer_key l) as [k|e]; cbn [rbind].
  2:{ split; [done|]. by intros [[k ?] _]. }
  destruct (parse_name now (b (layer_title l))) as [[[t [n|]] dt]|e];
    cbn [rbind].
  - split; [|by intros [_ (? & ? & ?)]].
    rewrite org_key_index. cbn [rbind].
    step_result; [|done]. done.
  - split; [|done]. intros _. split; [by eexists|by eexists _, _].
  - split; [done|]. by intros [_ (? & ? & ?)].
Qed.
End MapperFacts.

(** ** [wxs_to_dict]: the resources of a mapped layer *)

Lemma string_length_app (s1 s2 : string) :
  String.length (s1 +:+ s2) = String.length s1 + String.length s2.
Proof. induction s1 as [|c s1 IH]; [done|]. simpl. by f_equal. Qed.

Lemma layer_entry_is_not_url (fmt : string) : fmt +:+ "_layer" ≠ "url".
Proof.
  intros H. apply (f_equal String.length) in H.
  rewrite string_length_app in H. cbn in H. lia.
Qed.

Section MapperResources.
Context (slugify : string → string) {coord : Type}.
Context (json_dumps : list (list (list (list coord))) → string).

(** X21.  A mapped layer has one or two resources, each with a [url]: the
    data dictionary of its identifier first, when the table of documents
    has a non-empty url for it, and the service endpoint last. *)
Theorem wxs_to_dict_resources now (l : layer (coord := coord)) wxs_url
    org_dict group_dict pdf_dict fallback_org_id res_format pkg :
  wxs_to_dict slugify json_dumps now l wxs_url org_dict group_dict pdf_dict
    fallback_org_id res_format = Ok (Some pkg) →
  ∃ t n dt rs,
    parse_name now (b (layer_title l)) = Ok (t, Some n, dt)
    ∧ resources pkg = Some rs
    ∧ Forall has_url rs
    ∧ url_of <$> rs = option_list (data_dictionary_url pdf_dict n) ++ [wxs_url].
Proof.
  unfold wxs_to_dict. step_result; [|done].
  destruct (parse_name now (b (layer_title l))) as [[[t [n|]] dt]|e] eqn:Hp;
    cbn [rbind]; [|done|done].
  step_result; [|done]. step_result; [|done].
  intros [= <-]. exists t, n, dt. eexists. split; [done|].
  cbn [resources]. split; [done|].
  unfold data_dictionary_url, has_url, url_of.
  pose proof (layer_entry_is_not_url (str (Py.lower (b res_format)))) as Hne.
  destruct (pdf_dict !! str n) as [pdf_url|]; [destruct (truthy pdf_url)|];
    cbn [option_list app fmap list_fmap];
    rewrite ?lookup_insert_eq, ?(lookup_insert_ne _ _ _ _ Hne), ?lookup_insert_eq;
    (split; [repeat constructor; by rewrite ?lookup_insert_eq,
               ?(lookup_insert_ne _ _ _ _ Hne), ?lookup_insert_eq|done]).
Qed.

(** X22.  A mapped layer is never turned away by [upsert_dataset]: it has a
    name, the slug of its title, and a resources entry, so the run starts
    with the probe for that name whatever the catalog and the flags are. *)
Theorem wxs_to_dict_then_upsert_probes now (l : layer (coord := coord)) wxs_url
    org_dict group_dict pdf_dict fallback_org_id res_format pkg
    {St} (handle : St → call → St * result package) (ow drop : bool) σ :
  wxs_to_dict slugify json_dumps now l wxs_url org_dict group_dict pdf_dict
    fallback_org_id res_format = Ok (Some pkg) →
  ∃ name rest,
    fields pkg !! "name" = Some (VStr name)
    ∧ (upsert_dataset handle (Some pkg) ow drop σ).1.2
      = (PackageShow (VStr name), (handle σ (PackageShow (VStr name))).2) :: rest.
Proof.
  unfold wxs_to_dict. step_result; [|done].
  destruct (parse_name now (b (layer_title l))) as [[[t [n|]] dt]|e] eqn:Hp;
    cbn [rbind]; [|done|done].
  step_result; [|done]. step_result; [|done].
  intros [= <-]. exists (slugify (str t)).
  assert (Hname : ∀ d rs, fields (mk_package d rs) = d) by done.
  unfold upsert_dataset, get_resources. cbn [fields resources].
  match goal with
  | |- ∃ rest, ?d !! "name" = _ ∧ _ =>
      assert (Hn : d !! "name" = Some (VStr (slugify (str t))))
  end.
  { destruct (pdf_dict !! str n) as [pdf_url|]; [destruct (truthy pdf_url)|];
      by simplify_map_eq. }
  rewrite Hn.
  destruct (handle σ (PackageShow (VStr (slugify (str t))))) as [σ1 [existing|e]].
  - destruct (reconcile _ _ _ _ _); [|by eexists].
    destruct (handle σ1 _). by eexists.
  - destruct (handle σ1 _). by eexists.
Qed.


Lemma extras_values_absent key (extras : list (gmap string string)) :
  Forall (λ x, ∃ k, x !! "key" = Some k ∧ k ≠ key) extras →
  extras_values key extras = Ok [].
Proof.
  induction 1 as [|x xs (k & Hk & Hne) _ IH]; [done|]. cbn.
  unfold getitem. rewrite Hk. cbn.
  by destruct (String.eqb_spec k key).
Qed.

(** X24.  An organisation that has extras, none of them the contact, makes
    the whole mapping of its layers fail with [IndexError]. *)
Theorem wxs_to_dict_needs_contact_extra now (l : layer (coord := coord))
    wxs_url org_dict group_dict pdf_dict fallback_org_id res_format
    k t n dt org x extras :
  layer_key l = Ok k →
  parse_name now (b (layer_title l)) = Ok (t, Some n, dt) →
  org_dict !! org_key n = Some org →
  org_extras org = Some (x :: extras) →
  Forall (λ x, ∃ k, x !! "key" = Some k ∧ k ≠ "Contact") (x :: extras) →
  wxs_to_dict slugify json_dumps now l wxs_url org_dict group_dict pdf_dict
    fallback_org_id res_format = Raise IndexError.
Proof.
  intros Hk Hp Horg Hextras Hnone. unfold wxs_to_dict. fold (layer_key l).
  rewrite Hk. cbn [rbind]. rewrite Hp. cbn [rbind].
  rewrite org_key_index. cbn [rbind]. fold (org_key n). rewrite Horg.
  cbn [mbind option_bind]. rewrite Hextras. cbn [default id].
  by rewrite (extras_values_absent _ _ Hnone).
Qed.
End MapperResources.

Lemma wxs_to_dict_resources_witness :
  ∃ t n dt rs,
    parse_name example_now (b (layer_title (roads_layer "LGATE-012" "slip:LGATE-012")))
    = Ok (t, Some n, dt)
    ∧ resources documented_roads_package = Some rs
    ∧ Forall has_url rs
    ∧ url_of <$> rs = option_list (data_dictionary_url example_documents n)
                      ++ ["https://example.org/ows"].
Proof.
  apply (wxs_to_dict_resources AsciiSlug.slugify (fun _ => "{}")%string
           example_now (roads_layer "LGATE-012" "slip:LGATE-012")
           "https://example.org/ows" ∅ ∅ example_documents (Some "org-0") "WMS"
           documented_roads_package).
  vm_compute. reflexivity.
Defined.

Lemma wxs_to_dict_then_upsert_probes_witness :
  ∃ name rest,
    fields documented_roads_package !! "name" = Some (VStr name)
    ∧ (upsert_dataset MemoryCatalog.handle (Some documented_roads_package)
         false false ∅).1.2
      = (PackageShow (VStr name),
         (MemoryCatalog.handle ∅ (PackageShow (VStr name))).2) :: rest.
Proof.
  apply (wxs_to_dict_then_upsert_probes AsciiSlug.slugify (fun _ => "{}")%string
           example_now (roads_layer "LGATE-012" "slip:LGATE-012")
           "https://example.org/ows" ∅ ∅ example_documents (Some "org-0") "WMS"
           documented_roads_package MemoryCatalog.handle false false ∅).
  vm_compute. reflexivity.
Defined.


Lemma wxs_to_dict_needs_contact_extra_witness :
  wxs_to_dict AsciiSlug.slugify (fun _ => "{}")%string example_now
    (roads_layer "LGATE-012" "slip:LGATE-012")
    "https://example.org/ows" example_organisations ∅ ∅ (Some "org-0") "WMS"
  = Raise IndexError.
Proof.
  apply (wxs_to_dict_needs_contact_extra AsciiSlug.slugify
           (fun _ => "{}")%string example_now
           (roads_layer "LGATE-012" "slip:LGATE-012")
           "https://example.org/ows" example_organisations ∅ ∅ (Some "org-0") "WMS"
           "LGATE-012" (b "Roads") (b "lgate-012") (b "2015-10-14T21:40:58")
           (mk_organisation (Some "org-1") (Some "Landgate")
              (Some [<["value" := "WA"]> {["key" := "Jurisdiction"]}]))
           (<["value" := "WA"]> {["key" := "Jurisdiction"]}) []).
  - reflexivity.
  - reflexivity.
  - reflexivity.
  - reflexivity.
  - repeat constructor. exists "Jurisdiction". split; [reflexivity|discriminate].
Defined.

(** ** [upsert_org] and [upsert_group] *)





(** ** The tables read from CSV files *)

Lemma to_lower_idempotent c : Py.to_lower (Py.to_lower c) = Py.to_lower c.
Proof. destruct c as [[] [] [] [] [] [] [] []]; by vm_compute. Qed.

Lemma lower_str_idempotent s : lower_str (lower_str s) = lower_str s.
Proof.
  unfold lower_str. rewrite b_str. f_equal. unfold Py.lower.
  rewrite <- list_fmap_compose. apply list_fmap_ext. intros _ c _. cbn.
  apply to_lower_idempotent.
Qed.

Lemma pdf_dict_of_app pre rest acc m :
  pdf_dict_of (pre ++ rest) acc = Ok m →
  ∃ acc', pdf_dict_of pre acc = Ok acc' ∧ pdf_dict_of rest acc' = Ok m.
Proof.
  revert acc. induction pre as [|p pre IH]; intros acc; cbn; [by eexists|].
  destruct (getitem p "id") as [[i|]|]; [|done..]. cbn.
  destruct (getitem p "url") as [u|]; [|done]. cbn. apply IH.
Qed.

Lemma pdf_dict_of_keeps rows acc m k (u : option string) :
  pdf_dict_of rows acc = Ok m →
  acc !! k = Some u →
  Forall (λ q, ∀ j, q !! "id" = Some (Some j) → lower_str j ≠ k) rows →
  m !! k = Some u.
Proof.
  revert acc. induction rows as [|p rows IH]; intros acc; cbn.
  - by intros [= <-].
  - unfold getitem. destruct (p !! "id") as [[i|]|] eqn:Hi; [|done..]. cbn.
    destruct (p !! "url") as [v|]; [|done]. cbn.
    intros Hm Hacc [Hp Hrows]%Forall_cons. eapply IH; [done| |done].
    rewrite lookup_insert_ne; [done|]. by apply Hp.
Qed.

(** X27.  The table of data dictionaries is found by the lower-case
    identifier: a row gives the url under its id in lower case, whatever
    the case of the id in the file, unless a later row has the same id up
    to case. *)
Theorem get_pdf_dict_lookup (before after : list (gmap string (option string)))
    (p : gmap string (option string)) m i (u : option string) :
  get_pdf_dict (before ++ p :: after) = Ok m →
  p !! "id" = Some (Some i) →
  p !! "url" = Some u →
  Forall (λ q, ∀ j, q !! "id" = Some (Some j) → lower_str j ≠ lower_str i) after →
  m !! lower_str i = Some u.
Proof.
  unfold get_pdf_dict. intros (acc & _ & Hrest)%pdf_dict_of_app Hi Hu Hafter.
  cbn in Hrest. unfold getitem in Hrest. rewrite Hi, Hu in Hrest. cbn in Hrest.
  eapply pdf_dict_of_keeps; [done| |done]. by rewrite lookup_insert_eq.
Qed.

Lemma get_pdf_dict_lookup_witness :
  (<["dow-013" := None]>
     {["lgate-012" := Some "https://example.org/lgate-012.pdf"]}
   : gmap string (option string))
    !! lower_str "LGATE-012"
  = Some (Some "https://example.org/lgate-012.pdf").
Proof.
  apply (get_pdf_dict_lookup
           [pdf_row (Some "lgate-012") (Some "https://example.org/old.pdf")]
           [pdf_row (Some "Dow-013") None]
           (pdf_row (Some "LGATE-012") (Some "https://example.org/lgate-012.pdf"))).
  - vm_compute. reflexivity.
  - reflexivity.
  - reflexivity.
  - repeat constructor. intros j [= <-]. by vm_compute.
Defined.

Lemma pdf_dict_of_keys rows acc m :
  pdf_dict_of rows acc = Ok m →
  (∀ k, is_Some (acc !! k) → lower_str k = k) →
  ∀ k, is_Some (m !! k) → lower_str k = k.
Proof.
  revert acc. induction rows as [|p rows IH]; intros acc; cbn.
  - by intros [= <-].
  - destruct (getitem p "id") as [[i|]|]; [|done..]. cbn.
    destruct (getitem p "url") as [u|]; [|done]. cbn.
    intros Hm Hacc. eapply IH; [done|]. intros k.
    destruct (decide (lower_str i = k)) as [<-|Hne].
    + intros _. apply lower_str_idempotent.
    + rewrite lookup_insert_ne by done. apply Hacc.
Qed.

Lemma pdf_dict_of_raise rows acc e :
  pdf_dict_of rows acc = Raise e →
  (e = KeyError "id" ∨ e = AttributeError ∨ e = KeyError "url")
  ∧ ¬ Forall (λ p, (∃ i, p !! "id" = Some (Some i)) ∧ is_Some (p !! "url")) rows.
Proof.
  revert acc. induction rows as [|p rows IH]; intros acc; cbn; [done|].
  unfold getitem. destruct (p !! "id") as [[i|]|] eqn:Hi; cbn.
  - destruct (p !! "url") as [u|] eqn:Hu; cbn.
    + intros [He Hn]%IH. split; [done|]. by intros [_ ?]%Forall_cons.
    + intros [= <-]. split; [by right; right|].
      intros [[_ [? ?]] _]%Forall_cons. congruence.
  - intros [= <-]. split; [by right; left|].
    intros [[[? ?] _] _]%Forall_cons. congruence.
  - intros [= <-]. split; [by left|].
    intros [[[? ?] _] _]%Forall_cons. congruence.
Qed.

Lemma pdf_dict_of_rows_ok rows acc m :
  pdf_dict_of rows acc = Ok m →
  Forall (λ p, (∃ i, p !! "id" = Some (Some i)) ∧ is_Some (p !! "url")) rows.
Proof.
  revert acc. induction rows as [|p rows IH]; intros acc; cbn; [by constructor|].
  unfold getitem. destruct (p !! "id") as [[i|]|] eqn:Hi; [|done..]. cbn.
  destruct (p !! "url") as [u|] eqn:Hu; [|done]. cbn.
  intros Hm. constructor; [by split; eexists|by eapply IH].
Qed.

(** X28.  [get_pdf_dict] returns exactly when every row has an [id] cell
    that holds a string and a [url] column, whose cell may be [None] and is
    then stored as it is.  Otherwise it raises [KeyError] for a column that
    is missing or [AttributeError] for an [id] cell that is [None].  Every
    key of the table it returns is in lower case. *)
Theorem get_pdf_dict_returns_lower_case_keys
    (rows : list (gmap string (option string))) :
  match get_pdf_dict rows with
  | Ok m =>
      Forall (λ p, (∃ i, p !! "id" = Some (Some i)) ∧ is_Some (p !! "url")) rows
      ∧ ∀ k, is_Some (m !! k) → lower_str k = k
  | Raise e =>
      (e = KeyError "id" ∨ e = AttributeError ∨ e = KeyError "url")
      ∧ ¬ Forall (λ p, (∃ i, p !! "id" = Some (Some i)) ∧ is_Some (p !! "url")) rows
  end.
Proof.
  unfold get_pdf_dict. destruct (pdf_dict_of rows ∅) as [m|e] eqn:Hrun.
  - split; [by eapply pdf_dict_of_rows_ok|].
    eapply pdf_dict_of_keys; [done|]. intros k [? Hk].
    by rewrite lookup_empty in Hk.
  - by eapply pdf_dict_of_raise.
Qed.

(** [get_pdf_dict] on a row without an [id] cell, on a row without a [url]
    cell, on a file without a [url] column, and on the example rows. *)
Example get_pdf_dict_short_rows :
  get_pdf_dict [pdf_row None (Some "https://example.org/a.pdf")]
  = Raise AttributeError
  ∧ get_pdf_dict [pdf_row (Some "Dow-013") None] = Ok {["dow-013" := None]}
  ∧ get_pdf_dict [{["id" := Some "Dow-013"]}] = Raise (KeyError "url")
  ∧ get_pdf_dict example_pdf_rows
    = Ok (<["dow-013" := None]>
            {["lgate-012" := Some "https://example.org/lgate-012.pdf"]}).
Proof. split_and!; by vm_compute. Qed.

Lemma org_of_row_ok row k org :
  org_of_row row = Ok (k, org) → org_entry_ok k org.
Proof.
  unfold org_of_row.
  repeat (step_result; [|done]). intros [= <- <-].
  split; [apply lower_str_idempotent|]. split; [by simplify_map_eq|].
  eexists _, _, _. split; [by simplify_map_eq|]. by vm_compute.
Qed.

Lemma org_dict_of_entries rows acc orgs :
  org_dict_of rows acc = Ok orgs →
  (∀ k o, acc !! k = Some o → org_entry_ok k o) →
  ∀ k o, orgs !! k = Some o → org_entry_ok k o.
Proof.
  revert acc. induction rows as [|row rows IH]; intros acc; cbn.
  - by intros [= <-].
  - destruct (org_of_row row) as [[k0 o0]|] eqn:Hrow; [|done]. cbn.
    intros Hrun Hacc. eapply IH; [done|]. intros k o.
    destruct (decide (k0 = k)) as [<-|Hne].
    + rewrite lookup_insert_eq. intros [= <-]. by eapply org_of_row_ok.
    + rewrite lookup_insert_ne by done. apply Hacc.
Qed.

(** X29.  Every organisation of the table that [get_org_dict] builds is
    filed under its name in lower case, carries that name, and has extras
    in which the contact and the jurisdiction are each found exactly
    once. *)
Theorem get_org_dict_entries (rows : list (gmap string string)) orgs k org :
  get_org_dict rows = Ok orgs →
  orgs !! k = Some org →
  lower_str k = k
  ∧ org !! "name" = Some (VStr k)
  ∧ ∃ extras c j,
      org !! "extras" = Some (VDicts extras)
      ∧ extras_values "Contact" extras = Ok [c]
      ∧ extras_values "Jurisdiction" extras = Ok [j].
Proof.
  unfold get_org_dict. intros Hrun Hk.
  refine (org_dict_of_entries rows ∅ orgs Hrun _ k org Hk).
  intros k' o Hk'. by rewrite lookup_empty in Hk'.
Qed.

Lemma get_org_dict_entries_witness :
  lower_str "lgate" = "lgate"
  ∧ example_org_entry !! "name" = Some (VStr "lgate")
  ∧ ∃ extras c j,
      example_org_entry !! "extras" = Some (VDicts extras)
      ∧ extras_values "Contact" extras = Ok [c]
      ∧ extras_values "Jurisdiction" extras = Ok [j].
Proof.
  apply (get_org_dict_entries [example_org_row] {["lgate" := example_org_entry]}).
  - vm_compute. reflexivity.
  - reflexivity.
Defined.
